(** * Radiography_Process: dead-time, transmission and fluorescence corrections

    A shallow embedding of [src/Library/Radiography_Process.py] (7-BM
    beamline radiography and fluorescence processing) and the properties
    of its functions.

    Number model.  A NumPy float64 is modelled by [npfloat]: a finite
    value carried as a real number, the two infinities and NaN, combined by
    the IEEE-754 rules for the special values.  Arithmetic on finite values
    is exact: rounding, overflow and underflow are not modelled, decimal
    constants of the source stand for the real numbers they denote, and
    the two zeros are identified (a division of a non-zero value by zero
    takes the sign of its numerator, IEEE's result for a divisor +0.0).

    Array model.  A NumPy array is a shape and its elements in row-major
    order, with NumPy's indexing along the first axis, boolean-mask
    selection and assignment, and broadcasting of element-wise operators.
    Arrays hold floats (the spec's data model); scalar parameters are
    single floats.

    Python exceptions are values of [pyresult]. *)

From Stdlib Require Import Reals Lra List Bool Arith Lia ZArith Permutation
  Sorted.
Import ListNotations.

Local Open Scope R_scope.

(* ================================================================== *)
(** ** Python results and exceptions *)

Inductive pyerr : Type :=
| TypeError
| IndexError
| ValueError.

Inductive pyresult (A : Type) : Type :=
| Ok (a : A)
| Raise (e : pyerr).

Arguments Ok {A} a.
Arguments Raise {A} e.

Definition bind {A B : Type} (m : pyresult A) (k : A -> pyresult B)
  : pyresult B :=
  match m with
  | Ok a => k a
  | Raise e => Raise e
  end.

Notation "x <- m ;; k" := (bind m (fun x => k))
  (at level 61, m at next level, right associativity).

(* ================================================================== *)
(** ** float64 values *)

Inductive npfloat : Type :=
| Fin (r : R)
| PInf
| NInf
| NaN.

Definition Rltb (x y : R) : bool := if Rlt_dec x y then true else false.
Definition Reqb (x y : R) : bool := if Req_dec_T x y then true else false.

(** The infinity (or NaN) that a non-zero (or zero) finite numerator
    gives when divided by zero or multiplied by +inf. *)
Definition inf_signed (a : R) : npfloat :=
  if Rltb 0 a then PInf else if Rltb a 0 then NInf else NaN.

Definition np_neg (x : npfloat) : npfloat :=
  match x with
  | Fin a => Fin (- a)
  | PInf => NInf
  | NInf => PInf
  | NaN => NaN
  end.

Definition np_add (x y : npfloat) : npfloat :=
  match x, y with
  | NaN, _ | _, NaN => NaN
  | Fin a, Fin b => Fin (a + b)
  | PInf, NInf | NInf, PInf => NaN
  | PInf, _ | _, PInf => PInf
  | NInf, _ | _, NInf => NInf
  end.

Definition np_sub (x y : npfloat) : npfloat := np_add x (np_neg y).

Definition np_mul (x y : npfloat) : npfloat :=
  match x, y with
  | NaN, _ | _, NaN => NaN
  | Fin a, Fin b => Fin (a * b)
  | Fin a, PInf | PInf, Fin a => inf_signed a
  | Fin a, NInf | NInf, Fin a => inf_signed (- a)
  | PInf, PInf | NInf, NInf => PInf
  | PInf, NInf | NInf, PInf => NInf
  end.

Definition np_div (x y : npfloat) : npfloat :=
  match x, y with
  | NaN, _ | _, NaN => NaN
  | Fin a, Fin b => if Reqb b 0 then inf_signed a else Fin (a / b)
  | Fin _, PInf | Fin _, NInf => Fin 0
  | PInf, Fin b => if Rltb b 0 then NInf else PInf
  | NInf, Fin b => if Rltb b 0 then PInf else NInf
  | PInf, PInf | PInf, NInf | NInf, PInf | NInf, NInf => NaN
  end.

Definition np_abs (x : npfloat) : npfloat :=
  match x with
  | Fin a => Fin (Rabs a)
  | PInf | NInf => PInf
  | NaN => NaN
  end.

Definition np_exp (x : npfloat) : npfloat :=
  match x with
  | Fin a => Fin (exp a)
  | PInf => PInf
  | NInf => Fin 0
  | NaN => NaN
  end.

Definition np_log (x : npfloat) : npfloat :=
  match x with
  | Fin a => if Rltb 0 a then Fin (ln a)
             else if Reqb a 0 then NInf else NaN
  | PInf => PInf
  | NInf => NaN
  | NaN => NaN
  end.

(** [x < y]; every comparison with NaN is false. *)
Definition np_lt (x y : npfloat) : bool :=
  match x, y with
  | NaN, _ | _, NaN => false
  | Fin a, Fin b => Rltb a b
  | NInf, NInf | PInf, _ | _, NInf => false
  | NInf, _ | _, PInf => true
  end.

Definition np_gt (x y : npfloat) : bool := np_lt y x.

(** Truth value of a float in [if x:]: false for zero only. *)
Definition truthy (x : npfloat) : bool :=
  match x with
  | Fin a => negb (Reqb a 0)
  | _ => true
  end.

(** Largest finite float64, which [np.nan_to_num] substitutes for
    an infinity. *)
Definition DBL_MAX : R := (2 - / 2 ^ 52) * 2 ^ 1023.

Definition nan_to_num1 (x : npfloat) : npfloat :=
  match x with
  | NaN => Fin 0
  | PInf => Fin DBL_MAX
  | NInf => Fin (- DBL_MAX)
  | Fin a => Fin a
  end.

(** [min] as [np.min] folds it: NaN wins, otherwise the smaller. *)
Definition np_min2 (x y : npfloat) : npfloat :=
  match x, y with
  | NaN, _ | _, NaN => NaN
  | _, _ => if np_lt y x then y else x
  end.

Definition is_finite (x : npfloat) : Prop :=
  match x with Fin _ => True | _ => False end.

Definition is_inf (x : npfloat) : Prop :=
  match x with PInf | NInf => True | _ => False end.

(* ================================================================== *)
(** ** NumPy arrays *)

Record ndarray (A : Type) : Type := mk_ndarray {
  shape : list nat;
  data : list A
}.

Arguments mk_ndarray {A} shape data.
Arguments shape {A} n.
Arguments data {A} n.

Definition size (sh : list nat) : nat := fold_right Nat.mul 1%nat sh.

(** An array is well formed when it has as many elements as its shape
    says. *)
Definition wf {A : Type} (a : ndarray A) : Prop :=
  length (data a) = size (shape a).

Definition farray : Type := ndarray npfloat.

Definition arr_map {A B : Type} (f : A -> B) (a : ndarray A) : ndarray B :=
  mk_ndarray (shape a) (map f (data a)).

(** A one-dimensional array. *)
Definition vec {A : Type} (l : list A) : ndarray A :=
  mk_ndarray [length l] l.

(** [a.flatten()] *)
Definition flatten {A : Type} (a : ndarray A) : ndarray A :=
  vec (data a).

(** [a.reshape(sh)]: a new array; the receiver is unchanged. *)
Definition reshape {A : Type} (a : ndarray A) (sh : list nat)
  : pyresult (ndarray A) :=
  if Nat.eqb (size sh) (length (data a))
  then Ok (mk_ndarray sh (data a)) else Raise ValueError.

Definition ones_like (a : farray) : farray := arr_map (fun _ => Fin 1) a.
Definition zeros_like (a : farray) : farray := arr_map (fun _ => Fin 0) a.
Definition nan_to_num (a : farray) : farray := arr_map nan_to_num1 a.

(** *** Broadcasting *)

(** Shapes are aligned at their last axis, so both are handled reversed.
    Two axis lengths agree when they are equal or one of them is 1. *)
Fixpoint broadcast_rev (r1 r2 : list nat) : option (list nat) :=
  match r1, r2 with
  | [], r | r, [] => Some r
  | d1 :: t1, d2 :: t2 =>
      match broadcast_rev t1 t2 with
      | None => None
      | Some t =>
          if Nat.eqb d1 d2 then Some (d1 :: t)
          else if Nat.eqb d1 1 then Some (d2 :: t)
          else if Nat.eqb d2 1 then Some (d1 :: t)
          else None
      end
  end.

Definition broadcast_shapes (s1 s2 : list nat) : option (list nat) :=
  option_map (@rev nat) (broadcast_rev (rev s1) (rev s2)).

(** Flat offset, in an operand of reversed shape [ro], of the element
    that the flat offset [k] of the result of reversed shape [rr] reads:
    an axis of length 1 (or a missing axis) of the operand is repeated. *)
Fixpoint source_offset (rr ro : list nat) (k : nat) : nat :=
  match rr, ro with
  | d :: rr', o :: ro' =>
      ((if Nat.eqb o 1 then 0 else k mod d)
       + o * source_offset rr' ro' (k / d))%nat
  | _, _ => 0%nat
  end.

Definition broadcast_to {A : Type} (dflt : A) (sh : list nat)
  (a : ndarray A) : list A :=
  map (fun k => nth (source_offset (rev sh) (rev (shape a)) k) (data a) dflt)
      (seq 0 (size sh)).

Fixpoint zip_with {A B C : Type} (f : A -> B -> C) (l1 : list A)
  (l2 : list B) : list C :=
  match l1, l2 with
  | x :: l1', y :: l2' => f x y :: zip_with f l1' l2'
  | _, _ => []
  end.

(** An element-wise binary operator on two arrays, by broadcasting:
    both operands are stretched to the common shape, or the operation
    raises when their shapes do not agree. *)
Definition arr_broadcast2 (f : npfloat -> npfloat -> npfloat) (a b : farray)
  : pyresult farray :=
  match broadcast_shapes (shape a) (shape b) with
  | None => Raise ValueError
  | Some sh =>
      Ok (mk_ndarray sh
            (zip_with f (broadcast_to NaN sh a) (broadcast_to NaN sh b)))
  end.

(** An element-wise binary operator on two arrays.  Operands of one
    shape are paired up element by element, which is what broadcasting
    them gives ([arr_broadcast2_same] below); other shapes are
    broadcast. *)
Definition arr_map2 (f : npfloat -> npfloat -> npfloat) (a b : farray)
  : pyresult farray :=
  if list_eq_dec Nat.eq_dec (shape a) (shape b)
  then Ok (mk_ndarray (shape a) (zip_with f (data a) (data b)))
  else arr_broadcast2 f a b.

(** *** Indexing *)

(** What [a[i]] or one step of iterating over [a] yields: an element of
    a one-dimensional array, a sub-array otherwise. *)
Inductive item : Type :=
| Scalar (x : npfloat)
| Row (a : farray).

(** [a[i]] for an integer [0 <= i]. *)
Definition index0 (a : farray) (i : nat) : pyresult item :=
  match shape a with
  | [] => Raise IndexError
  | d :: rest =>
      if Nat.ltb i d then
        match rest with
        | [] => Ok (Scalar (nth i (data a) NaN))
        | _ :: _ =>
            Ok (Row (mk_ndarray rest
                       (firstn (size rest) (skipn (i * size rest) (data a)))))
        end
      else Raise IndexError
  end.

(** [len(a)] *)
Definition len (a : farray) : pyresult nat :=
  match shape a with
  | [] => Raise TypeError
  | d :: _ => Ok d
  end.

Fixpoint mapM {A B : Type} (f : A -> pyresult B) (l : list A)
  : pyresult (list B) :=
  match l with
  | [] => Ok []
  | x :: l' => y <- f x ;; ys <- mapM f l' ;; Ok (y :: ys)
  end.

(** The items that iterating over [a] produces. *)
Definition iter (a : farray) : pyresult (list item) :=
  n <- len a ;; mapM (index0 a) (seq 0 n).

(** [l[k]] on a Python list, negative [k] counting from the end. *)
Definition py_getitem {A : Type} (l : list A) (k : Z) : pyresult A :=
  let n := Z.of_nat (length l) in
  let j := if (k <? 0)%Z then (k + n)%Z else k in
  if ((0 <=? j) && (j <? n))%Z
  then match nth_error l (Z.to_nat j) with
       | Some x => Ok x
       | None => Raise IndexError
       end
  else Raise IndexError.

(** *** Items as operands *)

Definition item_map (f : npfloat -> npfloat) (it : item) : item :=
  match it with
  | Scalar x => Scalar (f x)
  | Row a => Row (arr_map f a)
  end.

(** Conversion to a C double, as an extension function applies it to
    its float arguments: a float, or an array of exactly one element. *)
Definition as_double (it : item) : pyresult npfloat :=
  match it with
  | Scalar x => Ok x
  | Row a =>
      match data a with
      | [x] => Ok x
      | _ => Raise TypeError
      end
  end.

(** [bool(a)] for an array of booleans: defined for one element only
    (an empty array counts as false). *)
Definition array_truth (l : list bool) : pyresult bool :=
  match l with
  | [] => Ok false
  | [b] => Ok b
  | _ => Raise ValueError
  end.

(** [bool(x < y)] on two items, as [sorted] evaluates it. *)
Definition item_lt (x y : item) : pyresult bool :=
  match x, y with
  | Scalar a, Scalar b => Ok (np_lt a b)
  | Scalar a, Row r => array_truth (map (fun b => np_lt a b) (data r))
  | Row r, Scalar b => array_truth (map (fun a => np_lt a b) (data r))
  | Row r1, Row r2 =>
      if list_eq_dec Nat.eq_dec (shape r1) (shape r2)
      then array_truth (zip_with np_lt (data r1) (data r2))
      else
        match broadcast_shapes (shape r1) (shape r2) with
        | None => Raise ValueError
        | Some sh =>
            array_truth (zip_with np_lt (broadcast_to NaN sh r1)
                                        (broadcast_to NaN sh r2))
        end
  end.

(** [a / it] *)
Definition arr_div_item (a : farray) (it : item) : pyresult farray :=
  match it with
  | Scalar s => Ok (arr_map (fun x => np_div x s) a)
  | Row r => arr_map2 np_div a r
  end.

(** *** [sorted] *)

(** [sorted] is stable and compares with [<] only.  The model is a stable
    insertion sort: on elements that [<] orders (no NaN among them) every
    stable sort returns the same list; a comparison that raises aborts
    the sort. *)
Fixpoint insert_sorted {A : Type} (lt : A -> A -> pyresult bool) (x : A)
  (l : list A) : pyresult (list A) :=
  match l with
  | [] => Ok [x]
  | y :: l' =>
      b <- lt y x ;;
      if b then (r <- insert_sorted lt x l' ;; Ok (y :: r))
      else Ok (x :: y :: l')
  end.

Fixpoint sorted_by {A : Type} (lt : A -> A -> pyresult bool) (l : list A)
  : pyresult (list A) :=
  match l with
  | [] => Ok []
  | x :: l' => s <- sorted_by lt l' ;; insert_sorted lt x s
  end.

(** [sorted(a)] for an array [a]. *)
Definition sorted (a : farray) : pyresult (list item) :=
  its <- iter a ;; sorted_by item_lt its.

(** *** Boolean masks *)

Fixpoint select {A : Type} (m : list bool) (l : list A) : list A :=
  match m, l with
  | b :: m', x :: l' => if b then x :: select m' l' else select m' l'
  | _, _ => []
  end.

Fixpoint assign {A : Type} (m : list bool) (l v : list A) : list A :=
  match m, l with
  | b :: m', x :: l' =>
      if b then
        match v with
        | y :: v' => y :: assign m' l' v'
        | [] => x :: assign m' l' []
        end
      else x :: assign m' l' v
  | _, _ => l
  end.

Definition count_true (m : list bool) : nat := length (filter (fun b => b) m).

(** [a[m]]: the selected elements, as a one-dimensional array. *)
Definition mask_get (a : farray) (m : ndarray bool) : pyresult farray :=
  if list_eq_dec Nat.eq_dec (shape a) (shape m)
  then Ok (vec (select (data m) (data a)))
  else Raise IndexError.

(** [a[m] = v] for a one-dimensional [v]: one value per selected
    element, or a single value for all of them; returns the array after
    the assignment. *)
Definition mask_set (a : farray) (m : ndarray bool) (v : farray)
  : pyresult farray :=
  if list_eq_dec Nat.eq_dec (shape a) (shape m)
  then
    if list_eq_dec Nat.eq_dec (shape v) [count_true (data m)]
    then Ok (mk_ndarray (shape a) (assign (data m) (data a) (data v)))
    else
      match shape v, data v with
      | [1%nat], [y] =>
          Ok (mk_ndarray (shape a)
                (assign (data m) (data a) (repeat y (count_true (data m)))))
      | _, _ => Raise ValueError
      end
  else Raise IndexError.

(** [np.min(a)] *)
Definition np_min (a : farray) : pyresult npfloat :=
  match data a with
  | [] => Raise ValueError
  | x :: l => Ok (fold_left np_min2 l x)
  end.

(** In-place [a /= b]: the quotient has to fit the shape of [a]. *)
Definition arr_idiv (a b : farray) : pyresult farray :=
  r <- arr_map2 np_div a b ;;
  if list_eq_dec Nat.eq_dec (shape r) (shape a)
  then Ok r else Raise ValueError.

(** [l[i] = x] on the elements of a one-dimensional array. *)
Fixpoint setitem {A : Type} (l : list A) (i : nat) (x : A)
  : pyresult (list A) :=
  match l, i with
  | [], _ => Raise IndexError
  | _ :: l', O => Ok (x :: l')
  | y :: l', S i' => r <- setitem l' i' x ;; Ok (y :: r)
  end.

(** A keyword argument: the value passed, or its default. *)
Definition arg {A : Type} (given : option A) (default : A) : A :=
  match given with
  | Some v => v
  | None => default
  end.

(* ================================================================== *)
(** ** The functions of Radiography_Process.py *)

(** [fcompute_transmission(PIN, reference, clear_ratio=0, PIN_dark=0,
    ref_dark=0)] *)
Definition fcompute_transmission (PIN reference : farray)
  (clear_ratio PIN_dark ref_dark : option npfloat) : pyresult farray :=
  let clear_ratio := arg clear_ratio (Fin 0) in
  let PIN_dark := arg PIN_dark (Fin 0) in
  let ref_dark := arg ref_dark (Fin 0) in
  transmission <-
    arr_map2 np_div (arr_map (fun x => np_sub x PIN_dark) PIN)
                    (arr_map (fun x => np_sub x ref_dark) reference) ;;
  if truthy clear_ratio then
    Ok (arr_map (fun x => np_div x clear_ratio) transmission)
  else
    s <- sorted transmission ;;
    n <- len transmission ;;
    d <- py_getitem s (if Nat.ltb 1 n then (-2)%Z else (-1)%Z) ;;
    arr_div_item transmission d.

(** [fcompute_extinction_lengths(PIN, reference, clear_ratio=0,
    PIN_dark=0, ref_dark=0, abs_value=True)] *)
Definition fcompute_extinction_lengths (PIN reference : farray)
  (clear_ratio PIN_dark ref_dark : option npfloat)
  (abs_value : option bool) : pyresult farray :=
  let abs_value := arg abs_value true in
  t <- fcompute_transmission PIN reference clear_ratio PIN_dark ref_dark ;;
  if abs_value
  then Ok (arr_map np_neg (arr_map np_log (arr_map np_abs t)))
  else Ok (arr_map np_neg (arr_map np_log t)).

(** [fcompute_radiography_density(PIN, reference, clear_ratio=0,
    PIN_dark=0, ref_dark=0, abs_coeff=1)]; the inner [None] is Python's
    [None]. *)
Definition fcompute_radiography_density (PIN reference : farray)
  (clear_ratio PIN_dark ref_dark abs_coeff : option npfloat)
  : pyresult (option farray) :=
  let abs_coeff := arg abs_coeff (Fin 1) in
  if truthy abs_coeff then
    e <- fcompute_extinction_lengths PIN reference
           (Some (arg clear_ratio (Fin 0))) (Some (arg PIN_dark (Fin 0)))
           (Some (arg ref_dark (Fin 0))) (Some true) ;;
    Ok (Some (arr_map (fun x => np_div x abs_coeff) e))
  else Ok None.

(** [fdead_time_zero_function(actual_countrate, observed_countrate,
    time_constant)] *)
Definition fdead_time_zero_function
  (actual_countrate observed_countrate time_constant : npfloat) : npfloat :=
  np_sub
    (np_mul actual_countrate
       (np_exp (np_mul (np_neg time_constant) actual_countrate)))
    observed_countrate.

(** [fcorrect_incident_intensity_colocated(ext_lengths)] *)
Definition fcorrect_incident_intensity_colocated (ext_lengths : farray)
  : pyresult farray :=
  let intensity_correction := ones_like ext_lengths in
  let is_sig := arr_map (fun x => np_gt x (Fin 1e-5)) ext_lengths in
  sel1 <- mask_get ext_lengths is_sig ;;
  sel2 <- mask_get ext_lengths is_sig ;;
  vals <- arr_map2 np_div
            (arr_map (fun x => np_sub (Fin 1) (np_exp (np_neg x))) sel1)
            sel2 ;;
  mask_set intensity_correction is_sig vals.

(** [radiography * abs_coeff] if [abs_coeff] is non-zero, else
    [-np.log(radiography)]: the conversion both fluorescence functions
    start their extinction correction with. *)
Definition ext_lengths_of (radiography : farray) (abs_coeff : npfloat)
  : farray :=
  if truthy abs_coeff
  then arr_map (fun x => np_mul x abs_coeff) radiography
  else arr_map np_neg (arr_map np_log radiography).

(** [if baseline: final = final - np.min(final)] *)
Definition subtract_baseline (baseline : bool) (final_fluorescence : farray)
  : pyresult farray :=
  if baseline then
    m <- np_min final_fluorescence ;;
    Ok (arr_map (fun x => np_sub x m) final_fluorescence)
  else Ok final_fluorescence.

(** [fcompute_fluorescence(raw_fluorescence, slow_events, fast_events,
    radiography, reference, abs_coeff=0, baseline=False)] *)
Definition fcompute_fluorescence
  (raw_fluorescence slow_events fast_events radiography reference : farray)
  (abs_coeff : option npfloat) (baseline : option bool) : pyresult farray :=
  let abs_coeff := arg abs_coeff (Fin 0) in
  let baseline := arg baseline false in
  q <- arr_map2 np_div slow_events fast_events ;;
  let live_time := nan_to_num q in
  final_fluorescence <- arr_map2 np_div raw_fluorescence live_time ;;
  final_fluorescence <- arr_idiv final_fluorescence reference ;;
  let ext_lengths := ext_lengths_of radiography abs_coeff in
  intensity_correction <-
    fcorrect_incident_intensity_colocated ext_lengths ;;
  final_fluorescence <- arr_idiv final_fluorescence intensity_correction ;;
  subtract_baseline baseline final_fluorescence.

Section RootFinding.

(** [scipy.optimize.brentq(f, a, b)] on C doubles: the root found, or
    the exception raised.  SciPy is not part of this repository. *)
Variable brentq :
  (npfloat -> npfloat) -> npfloat -> npfloat -> pyresult npfloat.

(** One pass of the loop body of [fcorrect_deadtime]: the right-hand side
    [brentq(fdead_time_zero_function, fast_countrate[i]-50000,
    fast_countrate[i]+1e5, (fast_countrate[i], time_constant))].
    [brentq] converts both bracket ends to doubles before it calls the
    function, and converts each value the function returns. *)
Definition fit_element (fast_countrate : farray) (time_constant : npfloat)
  (i : nat) : pyresult npfloat :=
  lo <- index0 fast_countrate i ;;
  hi <- index0 fast_countrate i ;;
  observed <- index0 fast_countrate i ;;
  a <- as_double (item_map (fun x => np_sub x (Fin 50000)) lo) ;;
  b <- as_double (item_map (fun x => np_add x (Fin 1e5)) hi) ;;
  obs <- as_double observed ;;
  brentq (fun x => fdead_time_zero_function x obs time_constant) a b.

(** [for i in range(...): fitted_fast_countrate[i] = brentq(...)] *)
Fixpoint fit_loop (fast_countrate : farray) (time_constant : npfloat)
  (range : list nat) (fitted_fast_countrate : farray) : pyresult farray :=
  match range with
  | [] => Ok fitted_fast_countrate
  | i :: range' =>
      x <- fit_element fast_countrate time_constant i ;;
      d <- setitem (data fitted_fast_countrate) i x ;;
      fit_loop fast_countrate time_constant range'
        (mk_ndarray (shape fitted_fast_countrate) d)
  end.

(** The fitted fast countrate that [fcorrect_deadtime] divides by: lines
    103 to 111 of the source. *)
Definition fitted_fast_countrate_of (fast_events : farray)
  (integration_time time_constant : npfloat) : pyresult farray :=
  let fast_countrate :=
    arr_map (fun x => np_div x integration_time) fast_events in
  let original_shape := shape fast_countrate in
  let fitted_fast_countrate := zeros_like (flatten fast_countrate) in
  fitted_fast_countrate <-
    fit_loop fast_countrate time_constant
      (seq 0 (length (data (flatten fast_countrate))))
      fitted_fast_countrate ;;
  _ <- reshape fitted_fast_countrate original_shape ;;
  Ok fitted_fast_countrate.

(** [fcorrect_deadtime(raw_fluorescence, slow_events, fast_events,
    integration_time, fast_filter_time_constant=3.15e-7)] *)
Definition fcorrect_deadtime
  (raw_fluorescence slow_events fast_events : farray)
  (integration_time : npfloat)
  (fast_filter_time_constant : option npfloat) : pyresult farray :=
  let fast_filter_time_constant :=
    arg fast_filter_time_constant (Fin 3.15e-7) in
  fitted_fast_countrate <-
    fitted_fast_countrate_of fast_events integration_time
      fast_filter_time_constant ;;
  q <- arr_map2 np_div slow_events fitted_fast_countrate ;;
  let live_time :=
    nan_to_num (arr_map (fun x => np_div x integration_time) q) in
  arr_map2 np_div raw_fluorescence live_time.

(** [fcompute_fluorescence_fit_fast(raw_fluorescence, slow_events,
    fast_events, radiography, reference, integration_time=1, abs_coeff=0,
    baseline=False, time_const=3.13e-7)] *)
Definition fcompute_fluorescence_fit_fast
  (raw_fluorescence slow_events fast_events radiography reference : farray)
  (integration_time abs_coeff : option npfloat) (baseline : option bool)
  (time_const : option npfloat) : pyresult farray :=
  let integration_time := arg integration_time (Fin 1) in
  let abs_coeff := arg abs_coeff (Fin 0) in
  let baseline := arg baseline false in
  let time_const := arg time_const (Fin 3.13e-7) in
  final_fluorescence <-
    fcorrect_deadtime raw_fluorescence slow_events fast_events
      integration_time (Some time_const) ;;
  final_fluorescence <- arr_idiv final_fluorescence reference ;;
  let ext_lengths := ext_lengths_of radiography abs_coeff in
  let intensity_correction := ones_like ext_lengths in
  let is_sig := arr_map (fun x => np_gt x (Fin 1e-5)) ext_lengths in
  sel1 <- mask_get ext_lengths is_sig ;;
  sel2 <- mask_get ext_lengths is_sig ;;
  vals <- arr_map2 np_div
            (arr_map (fun x => np_sub (Fin 1) (np_exp (np_neg x))) sel1)
            sel2 ;;
  intensity_correction <- mask_set intensity_correction is_sig vals ;;
  final_fluorescence <- arr_idiv final_fluorescence intensity_correction ;;
  subtract_baseline baseline final_fluorescence.

End RootFinding.

(* ================================================================== *)
(** ** Notions used to state the properties *)

(** The incident-intensity correction factor of one element: what the
    masked assignment leaves at a position holding [x]. *)
Definition correction1 (x : npfloat) : npfloat :=
  if np_gt x (Fin 1e-5)
  then np_div (np_sub (Fin 1) (np_exp (np_neg x))) x
  else Fin 1.

(** The pipeline before the baseline step, element by element. *)
Definition fluorescence_elements (raw slow fast reference ext : list npfloat)
  : list npfloat :=
  zip_with np_div
    (zip_with np_div
       (zip_with np_div raw (map nan_to_num1 (zip_with np_div slow fast)))
       reference)
    (map correction1 ext).

(** The dead-time residual on real numbers. *)
Definition residual (actual observed time_constant : R) : R :=
  actual * exp (- time_constant * actual) - observed.

(** The dead-time model: the countrate observed at an actual countrate. *)
Definition observed_rate (actual time_constant : R) : R :=
  actual * exp (- time_constant * actual).

(** What SciPy documents for one call [brentq(f, a, b)] with tolerances
    [xtol] and [rtol]: [ValueError] when [f(a)] and [f(b)] have the same
    strict sign; otherwise a point [x0] of the bracket such that an exact
    zero [r] of [f] in the bracket satisfies
    [|r - x0| <= xtol + rtol * |x0|]. *)
Definition brentq_contract_at
  (brentq : (npfloat -> npfloat) -> npfloat -> npfloat -> pyresult npfloat)
  (xtol rtol : R) (f : npfloat -> npfloat) (a b : R) : Prop :=
  match f (Fin a), f (Fin b) with
  | Fin fa, Fin fb =>
      if Rltb 0 (fa * fb)
      then brentq f (Fin a) (Fin b) = Raise ValueError
      else exists x0 r,
          brentq f (Fin a) (Fin b) = Ok (Fin x0)
          /\ a <= x0 <= b
          /\ a <= r <= b
          /\ f (Fin r) = Fin 0
          /\ Rabs (r - x0) <= xtol + rtol * Rabs x0
  | _, _ => True
  end.

(** A stand-in for [brentq] that answers [x0] to every call; it
    instantiates statements at one concrete call whose root is known. *)
Definition brentq_const (x0 : npfloat)
  : (npfloat -> npfloat) -> npfloat -> npfloat -> pyresult npfloat :=
  fun _ _ _ => Ok x0.

(** A stand-in for [brentq] that raises [e] at every call. *)
Definition brentq_raise (e : pyerr)
  : (npfloat -> npfloat) -> npfloat -> npfloat -> pyresult npfloat :=
  fun _ _ _ => Raise e.

(** A stand-in for [brentq] that answers the value, at the point [p], of
    the function it is handed: it makes that function visible in the
    result of the caller. *)
Definition brentq_probe (p : npfloat)
  : (npfloat -> npfloat) -> npfloat -> npfloat -> pyresult npfloat :=
  fun f _ _ => Ok (f p).

(** The root-finding call of [fcorrect_deadtime] for one observed
    countrate [c] of a one-dimensional array. *)
Definition solve_rate
  (brentq : (npfloat -> npfloat) -> npfloat -> npfloat -> pyresult npfloat)
  (time_constant c : npfloat) : pyresult npfloat :=
  brentq (fun x => fdead_time_zero_function x c time_constant)
    (np_sub c (Fin 50000)) (np_add c (Fin 1e5)).

(** [x <= y] for floats that [<] orders. *)
Definition np_le (x y : npfloat) : Prop := np_lt y x = false.

(** Stable insertion sort by [<] on floats: [sorted] on the elements of
    a one-dimensional array, where no comparison raises. *)
Fixpoint insert_float (x : npfloat) (l : list npfloat) : list npfloat :=
  match l with
  | [] => [x]
  | y :: l' => if np_lt y x then y :: insert_float x l' else x :: y :: l'
  end.

Fixpoint sort_floats (l : list npfloat) : list npfloat :=
  match l with
  | [] => []
  | x :: l' => insert_float x (sort_floats l')
  end.

(** The dark-corrected ratio [(PIN - PIN_dark) / (reference - ref_dark)]
    of two one-dimensional arrays of equal length, element by element. *)
Definition dark_ratio (PIN reference : list npfloat)
  (PIN_dark ref_dark : npfloat) : list npfloat :=
  zip_with np_div (map (fun x => np_sub x PIN_dark) PIN)
                  (map (fun x => np_sub x ref_dark) reference).

(** Auto-normalisation as the specification words it: flatten and sort
    the ratio, divide every element by the second-largest value, or by the
    single element of a one-element array. *)
Definition spec_auto_normalize (ratio : farray) : farray :=
  let s := sort_floats (data (flatten ratio)) in
  let d := match s with
           | [x] => x
           | _ => nth (length s - 2) s NaN
           end in
  arr_map (fun x => np_div x d) ratio.

(** A float that is [m] or more: a finite value from [m] up, or plus
    infinity. *)
Definition at_least (m : R) (w : npfloat) : Prop :=
  w = PInf \/ exists v, w = Fin v /\ m <= v.

(** What the call with [baseline=True] returns ([res]) when the call
    with [baseline=False] returns the assembled array [a].  A finite
    minimum [m] of [a] is subtracted from every element and the minimum
    of the result is exactly 0.  A minimum that is NaN or infinite is
    subtracted all the same, and the minimum of the result is NaN.  An
    empty [a] has no minimum and the call raises. *)
Definition baseline_outcome (a : farray) (res : pyresult farray) : Prop :=
  (forall m, np_min a = Ok (Fin m) ->
     exists r,
       res = Ok r
       /\ r = arr_map (fun x => np_sub x (Fin m)) a
       /\ np_min r = Ok (Fin 0))
  /\ (forall x, np_min a = Ok x -> ~ is_finite x ->
      exists r,
        res = Ok r
        /\ r = arr_map (fun y => np_sub y x) a
        /\ np_min r = Ok NaN)
  /\ (forall e, np_min a = Raise e -> res = Raise e).

(** An item that is a sub-array of shape [sh] with [n] elements. *)
Definition is_row_of (n : nat) (sh : list nat) (it : item) : Prop :=
  exists d, it = Row (mk_ndarray sh d) /\ length d = n.

(** A finite float above zero. *)
Definition positive_float (x : npfloat) : Prop :=
  exists v, x = Fin v /\ 0 < v.

(* ================================================================== *)
(** ** Basic facts about the number and array models *)

Lemma Rltb_true (x y : R) : x < y -> Rltb x y = true.
Proof. intros H. unfold Rltb. destruct (Rlt_dec x y); [reflexivity | contradiction]. Qed.

Lemma Rltb_false (x y : R) : ~ x < y -> Rltb x y = false.
Proof. intros H. unfold Rltb. destruct (Rlt_dec x y); [contradiction | reflexivity]. Qed.

Lemma Reqb_true (x y : R) : x = y -> Reqb x y = true.
Proof. intros H. unfold Reqb. destruct (Req_dec_T x y); [reflexivity | contradiction]. Qed.

Lemma Reqb_false (x y : R) : x <> y -> Reqb x y = false.
Proof. intros H. unfold Reqb. destruct (Req_dec_T x y); [contradiction | reflexivity]. Qed.

Lemma Rltb_spec (x y : R) : Rltb x y = true <-> x < y.
Proof.
  unfold Rltb. destruct (Rlt_dec x y); split; intros; try assumption;
    try reflexivity; try discriminate; contradiction.
Qed.

Lemma np_div_one (x : npfloat) : np_div x (Fin 1) = x.
Proof.
  destruct x; simpl; try reflexivity.
  - rewrite Reqb_false by lra. f_equal. field.
  - rewrite Rltb_false by lra. reflexivity.
  - rewrite Rltb_false by lra. reflexivity.
Qed.

Lemma np_div_fin (a b : R) : b <> 0 -> np_div (Fin a) (Fin b) = Fin (a / b).
Proof. intros H. simpl. rewrite Reqb_false by assumption. reflexivity. Qed.

Lemma truthy_zero : truthy (Fin 0) = false.
Proof. simpl. rewrite Reqb_true; reflexivity. Qed.

Lemma truthy_nonzero (x : npfloat) : x <> Fin 0 -> truthy x = true.
Proof.
  destruct x; simpl; try reflexivity.
  intros H. rewrite Reqb_false; [reflexivity |].
  intros E. apply H. rewrite E. reflexivity.
Qed.

Lemma bind_assoc {A B C : Type} (m : pyresult A) (f : A -> pyresult B)
  (g : B -> pyresult C) :
  bind (bind m f) g = bind m (fun x => bind (f x) g).
Proof. destruct m; reflexivity. Qed.

Lemma arr_map2_same (f : npfloat -> npfloat -> npfloat) (a b : farray) :
  shape a = shape b ->
  arr_map2 f a b = Ok (mk_ndarray (shape a) (zip_with f (data a) (data b))).
Proof.
  intros H. unfold arr_map2.
  destruct (list_eq_dec Nat.eq_dec (shape a) (shape b)); [reflexivity | contradiction].
Qed.

Lemma size_app (l1 l2 : list nat) :
  size (l1 ++ l2) = (size l1 * size l2)%nat.
Proof.
  induction l1 as [|d l1 IH]; simpl; [lia |].
  fold (size (l1 ++ l2)) (size l1). rewrite IH. lia.
Qed.

Lemma size_rev (l : list nat) : size (rev l) = size l.
Proof.
  induction l as [|d l IH]; [reflexivity |].
  simpl rev. rewrite size_app, IH. simpl. fold (size l). lia.
Qed.

Lemma broadcast_rev_same (r : list nat) : broadcast_rev r r = Some r.
Proof.
  induction r as [|d r IH]; [reflexivity |].
  simpl. rewrite IH, Nat.eqb_refl. reflexivity.
Qed.

Lemma source_offset_same (r : list nat) (k : nat) :
  (k < size r)%nat -> source_offset r r k = k.
Proof.
  revert k. induction r as [|d r IH]; intros k Hk.
  - simpl in Hk. simpl. lia.
  - simpl in Hk. fold (size r) in Hk.
    assert (Hd : d <> 0%nat) by (intros ->; simpl in Hk; lia).
    cbn [source_offset]. rewrite IH.
    + destruct (Nat.eqb d 1) eqn:E.
      * apply Nat.eqb_eq in E. subst d. rewrite Nat.div_1_r. lia.
      * pose proof (Nat.div_mod_eq k d). lia.
    + apply Nat.Div0.div_lt_upper_bound. lia.
Qed.

Lemma map_nth_seq {A : Type} (l : list A) (d : A) :
  map (fun k => nth k l d) (seq 0 (length l)) = l.
Proof.
  induction l as [|x l IH]; [reflexivity |].
  cbn [length seq map nth]. f_equal.
  rewrite <- seq_shift, map_map. exact IH.
Qed.

Lemma broadcast_to_same (a : farray) :
  wf a -> broadcast_to NaN (shape a) a = data a.
Proof.
  unfold wf, broadcast_to. intros Hwf.
  transitivity (map (fun k => nth k (data a) NaN) (seq 0 (length (data a))));
    [| apply map_nth_seq].
  rewrite Hwf.
  apply map_ext_in. intros k Hk. apply in_seq in Hk.
  rewrite source_offset_same; [reflexivity |].
  rewrite size_rev. lia.
Qed.

(** Broadcasting two well-formed arrays of one shape pairs their
    elements up: the two branches of [arr_map2] agree. *)
Lemma arr_broadcast2_same (f : npfloat -> npfloat -> npfloat)
  (a b : farray) :
  wf a -> wf b -> shape a = shape b ->
  arr_broadcast2 f a b
  = Ok (mk_ndarray (shape a) (zip_with f (data a) (data b))).
Proof.
  intros Ha Hb Hs. unfold arr_broadcast2, broadcast_shapes.
  rewrite <- Hs, broadcast_rev_same. cbn [option_map].
  rewrite rev_involutive, broadcast_to_same by exact Ha.
  rewrite Hs, broadcast_to_same by exact Hb. rewrite <- Hs. reflexivity.
Qed.

Lemma arr_idiv_same (a b : farray) :
  shape a = shape b ->
  arr_idiv a b = Ok (mk_ndarray (shape a) (zip_with np_div (data a) (data b))).
Proof.
  intros H. unfold arr_idiv. rewrite arr_map2_same by assumption. simpl.
  destruct (list_eq_dec Nat.eq_dec (shape a) (shape a)); [reflexivity | contradiction].
Qed.

Lemma zip_with_length {A B C : Type} (f : A -> B -> C) (l1 : list A)
  (l2 : list B) :
  length l1 = length l2 -> length (zip_with f l1 l2) = length l1.
Proof.
  revert l2. induction l1 as [|x l1 IH]; intros [|y l2] H; simpl in *;
    try reflexivity; try discriminate.
  f_equal. apply IH. lia.
Qed.

Lemma zip_with_nth {A B C : Type} (f : A -> B -> C) (l1 : list A)
  (l2 : list B) (i : nat) (d1 : A) (d2 : B) (d : C) :
  (i < length l1)%nat -> (i < length l2)%nat ->
  nth i (zip_with f l1 l2) d = f (nth i l1 d1) (nth i l2 d2).
Proof.
  revert l2 i. induction l1 as [|x l1 IH]; intros [|y l2] [|i] H1 H2;
    simpl in *; try lia; try reflexivity.
  apply IH; lia.
Qed.

Lemma zip_with_diag {A C : Type} (f : A -> A -> C) (l : list A) :
  zip_with f l l = map (fun x => f x x) l.
Proof. induction l as [|x l IH]; simpl; [reflexivity | f_equal; exact IH]. Qed.

Lemma zip_with_map_r_const {A B C : Type} (f : A -> B -> C) (c : B)
  (l1 : list A) (l2 : list B) :
  length l1 = length l2 -> Forall (fun y => y = c) l2 ->
  zip_with f l1 l2 = map (fun x => f x c) l1.
Proof.
  revert l2. induction l1 as [|x l1 IH]; intros [|y l2] HL HF; simpl in *;
    try reflexivity; try discriminate.
  inversion HF; subst. f_equal. apply IH; [lia | assumption].
Qed.

(** Decides the comparisons of real constants that evaluating the model
    on concrete numbers leaves behind. *)
Ltac np_decide :=
  repeat (rewrite ?ln_1, ?Ropp_0, ?Rplus_0_r, ?Rdiv_1_r;
          match goal with
          | |- context [Reqb ?a ?b] =>
              first [ rewrite (Reqb_true a b) by lra
                    | rewrite (Reqb_false a b) by lra ]
          | |- context [Rltb ?a ?b] =>
              first [ rewrite (Rltb_true a b) by lra
                    | rewrite (Rltb_false a b) by lra ]
          end).

Ltac np_eval :=
  unfold fluorescence_elements, ext_lengths_of, correction1, truthy,
    inf_signed, subtract_baseline, np_min, np_gt, np_sub, arr_map;
  cbn [zip_with map data shape arg np_div np_lt np_neg np_log np_add
       np_exp np_mul np_abs nan_to_num1 negb fold_left bind np_min2];
  np_decide;
  cbn [zip_with map data shape arg np_div np_lt np_neg np_log np_add
       np_exp np_mul np_abs nan_to_num1 negb fold_left bind np_min2].

(* ------------------------------------------------------------------ *)
(** *** The incident-intensity correction, element by element *)

Lemma count_true_select {A : Type} (p : A -> bool) (l : list A) :
  count_true (map p l) = length (select (map p l) l).
Proof.
  unfold count_true. induction l as [|x l IH]; simpl; [reflexivity |].
  destruct (p x); simpl; rewrite IH; reflexivity.
Qed.

Lemma assign_select (p : npfloat -> bool) (g : npfloat -> npfloat)
  (c : npfloat) (l : list npfloat) :
  assign (map p l) (map (fun _ => c) l)
    (zip_with np_div (map g (select (map p l) l)) (select (map p l) l))
  = map (fun x => if p x then np_div (g x) x else c) l.
Proof.
  induction l as [|x l IH]; simpl; [reflexivity |].
  destruct (p x); simpl; rewrite IH; reflexivity.
Qed.

(** The helper never raises: it returns the input's shape with
    [correction1] applied to every element. *)
Lemma incident_intensity_data (ext_lengths : farray) :
  fcorrect_incident_intensity_colocated ext_lengths
  = Ok (arr_map correction1 ext_lengths).
Proof.
  unfold fcorrect_incident_intensity_colocated, mask_get, mask_set.
  cbn [arr_map shape data ones_like].
  destruct (list_eq_dec Nat.eq_dec (shape ext_lengths) (shape ext_lengths))
    as [_|N]; [| contradiction].
  cbn [bind].
  rewrite arr_map2_same by reflexivity.
  cbn [bind shape data arr_map vec].
  rewrite <- count_true_select.
  destruct (list_eq_dec Nat.eq_dec _ _) as [_|N]; [| contradiction].
  rewrite assign_select. reflexivity.
Qed.

Lemma correction1_small (x : R) : x <= 1e-5 -> correction1 (Fin x) = Fin 1.
Proof.
  intros H. unfold correction1, np_gt. simpl.
  rewrite Rltb_false by lra. reflexivity.
Qed.

Lemma correction1_large (x : R) :
  1e-5 < x -> correction1 (Fin x) = Fin ((1 - exp (- x)) / x).
Proof.
  intros H. unfold correction1, np_gt. simpl.
  rewrite Rltb_true by lra. rewrite Reqb_false by lra. reflexivity.
Qed.

Lemma closed_form_bounds (x : R) :
  0 < x -> 0 < (1 - exp (- x)) / x < 1.
Proof.
  intros H.
  assert (E1 : exp (- x) < 1).
  { rewrite <- exp_0. apply exp_increasing. lra. }
  assert (E2 : 1 + - x < exp (- x)) by (apply exp_ineq1; lra).
  split.
  - apply Rdiv_lt_0_compat; lra.
  - apply Rmult_lt_reg_r with x; [assumption |].
    unfold Rdiv. rewrite Rmult_assoc, Rinv_l by lra. lra.
Qed.

(* ================================================================== *)
(** ** Incident-intensity correction *)

(** C4. For every array [L] of real numbers, of any shape,
    [fcorrect_incident_intensity_colocated] returns an array of the same
    shape in which the element for [x <= 1e-5] is exactly 1, the element
    for [x > 1e-5] is [(1 - exp(-x)) / x], and every element is a finite
    value in the interval (0, 1]. *)
Theorem incident_intensity_correction_range (sh : list nat) (L : list R) :
  exists r,
    fcorrect_incident_intensity_colocated (mk_ndarray sh (map Fin L)) = Ok r
    /\ shape r = sh
    /\ Forall2
         (fun x c =>
            (x <= 1e-5 -> c = Fin 1)
            /\ (1e-5 < x -> c = Fin ((1 - exp (- x)) / x))
            /\ exists v, c = Fin v /\ 0 < v <= 1)
         L (data r).
Proof.
  rewrite incident_intensity_data.
  eexists; split; [reflexivity |]. split; [reflexivity |].
  cbn [arr_map data].
  induction L as [|x L IH]; simpl; constructor; [| exact IH].
  split; [apply correction1_small |]. split; [apply correction1_large |].
  destruct (Rle_or_lt x 1e-5) as [Hs|Hl].
  - exists 1. split; [apply correction1_small; assumption | lra].
  - exists ((1 - exp (- x)) / x).
    split; [apply correction1_large; assumption |].
    pose proof (closed_form_bounds x). lra.
Qed.

(* ================================================================== *)
(** ** Radiography density *)

Lemma extinction_lengths_defaults (PIN reference : farray)
  (cr pd rd : option npfloat) (abs_value : option bool) :
  fcompute_extinction_lengths PIN reference (Some (arg cr (Fin 0)))
    (Some (arg pd (Fin 0))) (Some (arg rd (Fin 0))) abs_value
  = fcompute_extinction_lengths PIN reference cr pd rd abs_value.
Proof. destruct cr, pd, rd; reflexivity. Qed.

(** C5. [fcompute_radiography_density] with [abs_coeff = 0] returns
    [None] whatever its other arguments are: nothing is evaluated, so
    nothing is raised and no NaN is produced.  With any other
    [abs_coeff] it returns
    [fcompute_extinction_lengths(PIN, reference, clear_ratio, PIN_dark,
    ref_dark, True)] divided by [abs_coeff] (and raises what that call
    raises). *)
Theorem radiography_density_guard (PIN reference : farray)
  (clear_ratio PIN_dark ref_dark : option npfloat) (abs_coeff : npfloat) :
  abs_coeff <> Fin 0 ->
  fcompute_radiography_density PIN reference clear_ratio PIN_dark ref_dark
    (Some (Fin 0)) = Ok None
  /\ fcompute_radiography_density PIN reference clear_ratio PIN_dark ref_dark
       (Some abs_coeff)
     = (e <- fcompute_extinction_lengths PIN reference clear_ratio PIN_dark
               ref_dark (Some true) ;;
        Ok (Some (arr_map (fun x => np_div x abs_coeff) e))).
Proof.
  intros H. unfold fcompute_radiography_density. cbn [arg]. split.
  - rewrite truthy_zero. reflexivity.
  - rewrite truthy_nonzero by assumption.
    rewrite extinction_lengths_defaults. reflexivity.
Qed.

Lemma radiography_density_guard_witness :
  Fin 2 <> Fin 0
  /\ fcompute_radiography_density (vec [Fin 3]) (vec [Fin 4]) None None None
       (Some (Fin 0)) = Ok None
  /\ fcompute_radiography_density (vec [Fin 3]) (vec [Fin 4]) None None None
       (Some (Fin 2))
     = (e <- fcompute_extinction_lengths (vec [Fin 3]) (vec [Fin 4]) None
               None None (Some true) ;;
        Ok (Some (arr_map (fun x => np_div x (Fin 2)) e))).
Proof.
  assert (H : Fin 2 <> Fin 0) by (intros E; inversion E; lra).
  split; [exact H |].
  apply (radiography_density_guard (vec [Fin 3]) (vec [Fin 4]) None None None
           (Fin 2)).
  exact H.
Defined.

(* ================================================================== *)
(** ** Dead-time correction *)

Section DeadTime.

Variable brentq :
  (npfloat -> npfloat) -> npfloat -> npfloat -> pyresult npfloat.

Lemma mapM_length {A B : Type} (f : A -> pyresult B) (l : list A)
  (ys : list B) :
  mapM f l = Ok ys -> length ys = length l.
Proof.
  revert ys. induction l as [|x l IH]; intros ys H; simpl in H.
  - inversion H. reflexivity.
  - destruct (f x); [| discriminate].
    cbn [bind] in H. destruct (mapM f l) as [ys'|]; [| discriminate].
    cbn [bind] in H. inversion H. simpl. f_equal. apply IH. reflexivity.
Qed.

Lemma index0_vec (done rest : list npfloat) (c : npfloat) :
  index0 (vec (done ++ c :: rest)) (length done) = Ok (Scalar c).
Proof.
  unfold index0, vec. cbn [shape data].
  assert (H : Nat.ltb (length done) (length (done ++ c :: rest)) = true).
  { apply Nat.ltb_lt. rewrite length_app. simpl. lia. }
  rewrite H. rewrite nth_middle. reflexivity.
Qed.

Lemma setitem_middle {A : Type} (done rest : list A) (z x : A) :
  setitem (done ++ z :: rest) (length done) x = Ok (done ++ x :: rest).
Proof.
  induction done as [|y done IH]; simpl; [reflexivity |].
  rewrite IH. reflexivity.
Qed.

Lemma fit_element_vec (done rest : list npfloat) (c tc : npfloat) :
  fit_element brentq (vec (done ++ c :: rest)) tc (length done)
  = solve_rate brentq tc c.
Proof.
  unfold fit_element. rewrite index0_vec. reflexivity.
Qed.

(** The loop over a one-dimensional array solves every element in turn
    and stores the roots at their positions. *)
Lemma fit_loop_vec (tc : npfloat) (sh : list nat)
  (rest done_c done zs : list npfloat) :
  length done = length done_c ->
  length zs = length rest ->
  fit_loop brentq (vec (done_c ++ rest)) tc
    (seq (length done_c) (length rest)) (mk_ndarray sh (done ++ zs))
  = (xs <- mapM (solve_rate brentq tc) rest ;;
     Ok (mk_ndarray sh (done ++ xs))).
Proof.
  revert done_c done zs.
  induction rest as [|c rest IH]; intros done_c done zs Hd Hz.
  - destruct zs; [| discriminate]. reflexivity.
  - destruct zs as [|z zs]; [discriminate |].
    cbn [length seq fit_loop mapM].
    rewrite fit_element_vec.
    destruct (solve_rate brentq tc c) as [x|e]; [| reflexivity].
    cbn [bind data shape].
    rewrite <- Hd, setitem_middle. cbn [bind].
    replace (done_c ++ c :: rest) with ((done_c ++ [c]) ++ rest)
      by (rewrite <- app_assoc; reflexivity).
    replace (done ++ x :: zs) with ((done ++ [x]) ++ zs)
      by (rewrite <- app_assoc; reflexivity).
    replace (S (length done)) with (length (done_c ++ [c]))
      by (rewrite length_app; simpl; lia).
    rewrite IH.
    + destruct (mapM (solve_rate brentq tc) rest) as [xs|e]; [| reflexivity].
      cbn [bind]. rewrite <- app_assoc. reflexivity.
    + rewrite !length_app. simpl. lia.
    + simpl in Hz. lia.
Qed.

(** On a one-dimensional array the fitted countrate is the array of the
    roots found for [fast_events / integration_time], element by
    element. *)
Lemma fitted_fast_countrate_vec (fast : list npfloat) (it tc : npfloat) :
  fitted_fast_countrate_of brentq (vec fast) it tc
  = (xs <- mapM (solve_rate brentq tc)
             (map (fun x => np_div x it) fast) ;;
     Ok (vec xs)).
Proof.
  unfold fitted_fast_countrate_of.
  set (rates := map (fun x => np_div x it) fast).
  replace (arr_map (fun x => np_div x it) (vec fast)) with (vec rates)
    by (unfold vec, arr_map, rates; cbn [shape data];
        rewrite length_map; reflexivity).
  unfold flatten, zeros_like, arr_map. cbn [data shape vec].
  pose proof (fit_loop_vec tc [length rates] rates [] []
                (map (fun _ => Fin 0) rates) eq_refl) as H.
  cbn [app length] in H. rewrite H by apply length_map.
  destruct (mapM (solve_rate brentq tc) rates) as [xs|e] eqn:E;
    [| reflexivity].
  cbn [bind]. unfold reshape. cbn [data size fold_right].
  rewrite (mapM_length _ _ _ E), Nat.mul_1_r, Nat.eqb_refl.
  cbn [bind]. unfold vec. rewrite (mapM_length _ _ _ E). reflexivity.
Qed.

(** [fcorrect_deadtime] on one-dimensional arrays of one length. *)
Lemma correct_deadtime_vec (raw slow fast : list npfloat) (it : npfloat)
  (tc : option npfloat) :
  length raw = length fast ->
  length slow = length fast ->
  fcorrect_deadtime brentq (vec raw) (vec slow) (vec fast) it tc
  = (xs <- mapM (solve_rate brentq (arg tc (Fin 3.15e-7)))
             (map (fun x => np_div x it) fast) ;;
     Ok (vec (zip_with np_div raw
                (map nan_to_num1
                   (map (fun x => np_div x it)
                      (zip_with np_div slow xs)))))).
Proof.
  intros Hraw Hslow. unfold fcorrect_deadtime.
  rewrite fitted_fast_countrate_vec.
  destruct (mapM _ _) as [xs|e] eqn:E; [| reflexivity].
  cbn [bind].
  pose proof (mapM_length _ _ _ E) as Hxs. rewrite length_map in Hxs.
  rewrite arr_map2_same by (unfold vec; cbn [shape]; congruence).
  cbn [bind]. unfold nan_to_num, arr_map. cbn [shape data vec].
  rewrite arr_map2_same by (unfold vec; cbn [shape]; congruence).
  cbn [shape data]. unfold vec. do 2 f_equal.
  rewrite zip_with_length; [reflexivity |].
  rewrite !length_map, zip_with_length by congruence. congruence.
Qed.

End DeadTime.

(** Broadcasting a column against a row, as NumPy pairs them. *)
Example broadcast_column_row (a b c d : npfloat) :
  arr_map2 np_add (mk_ndarray [2; 1]%nat [a; b]) (mk_ndarray [2%nat] [c; d])
  = Ok (mk_ndarray [2; 2]%nat
          [np_add a c; np_add a d; np_add b c; np_add b d]).
Proof. reflexivity. Qed.

Example broadcast_mismatch (a b c d e : npfloat) :
  arr_map2 np_add (mk_ndarray [2%nat] [a; b]) (mk_ndarray [3%nat] [c; d; e])
  = Raise ValueError.
Proof. reflexivity. Qed.

(** C1, evaluated where the claim fails.  The loop of
    [fcorrect_deadtime] indexes [fast_countrate], not its flattened copy,
    and the reshaped array is dropped.  For the 2 x 2 array
    [[1, 2], [3, 4]] the first bracket end is a row of two numbers and
    the call raises [TypeError], whatever [brentq] does; for the 2 x 1
    column [[5], [7]] the fitted rates stay one-dimensional and the
    result has shape 2 x 2, not the shape of the inputs. *)
Theorem correct_deadtime_multidimensional
  (brentq : (npfloat -> npfloat) -> npfloat -> npfloat -> pyresult npfloat) :
  let square := mk_ndarray [2; 2]%nat [Fin 1; Fin 2; Fin 3; Fin 4] in
  let column := mk_ndarray [2; 1]%nat [Fin 5; Fin 7] in
  fcorrect_deadtime brentq square square square (Fin 1) None
  = Raise TypeError
  /\ exists r,
       fcorrect_deadtime (brentq_const (Fin 5)) column column column (Fin 1)
         None = Ok r
       /\ shape r = [2; 2]%nat
       /\ shape r <> shape column.
Proof.
  split; [reflexivity |].
  eexists. split; [reflexivity |].
  split; [reflexivity | discriminate].
Qed.

(* ------------------------------------------------------------------ *)
(** *** The dead-time residual and its bracketed root *)

Lemma zero_function_fin (x obs tc : R) :
  fdead_time_zero_function (Fin x) (Fin obs) (Fin tc)
  = Fin (residual x obs tc).
Proof. reflexivity. Qed.

Lemma residual_at_actual (actual tc : R) :
  residual actual (observed_rate actual tc) tc = 0.
Proof. unfold residual, observed_rate. lra. Qed.

(** The dead-time curve [x * exp(-tc * x)] rises up to its peak at
    [1 / tc]. *)
Lemma residual_increasing (tc obs x y : R) :
  0 < tc -> x < y -> y <= / tc ->
  residual x obs tc < residual y obs tc.
Proof.
  intros Htc Hxy Hy. unfold residual.
  assert (Ex : 0 < exp (- tc * x)) by apply exp_pos.
  assert (Ey : 0 < exp (- tc * y)) by apply exp_pos.
  destruct (Rle_or_lt y 0) as [Hneg|Hpos].
  - assert (Hm : exp (- tc * y) < exp (- tc * x))
      by (apply exp_increasing; nra).
    nra.
  - assert (Hty : tc * y <= 1).
    { apply Rmult_le_reg_l with (/ tc); [apply Rinv_0_lt_compat; lra |].
      rewrite <- Rmult_assoc, Rinv_l by lra. lra. }
    assert (Hsplit : exp (- tc * y)
                     = exp (- tc * x) * exp (- tc * (y - x))).
    { rewrite <- exp_plus. f_equal. lra. }
    assert (Hz : 1 + - tc * (y - x) < exp (- tc * (y - x)))
      by (apply exp_ineq1; nra).
    assert (Hk : x < y * exp (- tc * (y - x))) by nra.
    rewrite Hsplit. nra.
Qed.

Lemma observed_below_actual (actual tc : R) :
  0 < actual -> 0 < tc -> 0 < observed_rate actual tc < actual.
Proof.
  intros Ha Htc. unfold observed_rate.
  assert (E0 : 0 < exp (- tc * actual)) by apply exp_pos.
  assert (E1 : exp (- tc * actual) < 1).
  { rewrite <- exp_0. apply exp_increasing. nra. }
  nra.
Qed.

(** A bracket that contains the actual rate and ends before the peak:
    the residual changes sign over it and its only zero is the actual
    rate. *)
Lemma bracket_signs (actual tc : R) :
  0 < actual -> 0 < tc ->
  let obs := observed_rate actual tc in
  actual <= obs + 1e5 -> obs + 1e5 <= / tc ->
  residual (obs - 50000) obs tc < 0 /\ 0 <= residual (obs + 1e5) obs tc.
Proof.
  intros Ha Htc obs Hin Hpeak.
  pose proof (observed_below_actual actual tc Ha Htc) as Hobs.
  fold obs in Hobs.
  pose proof (residual_at_actual actual tc) as Hz. fold obs in Hz.
  split.
  - rewrite <- Hz. apply residual_increasing; lra.
  - destruct (Req_dec actual (obs + 1e5)) as [E|N].
    + rewrite <- E. lra.
    + rewrite <- Hz. left. apply residual_increasing; lra.
Qed.

(** Beyond its peak at [1 / tc] the dead-time curve falls. *)
Lemma residual_decreasing (tc obs x y : R) :
  0 < tc -> / tc <= x -> x < y ->
  residual y obs tc < residual x obs tc.
Proof.
  intros Htc Hx Hxy. unfold residual.
  assert (Ex : 0 < exp (- tc * x)) by apply exp_pos.
  assert (Hi : 0 < / tc) by (apply Rinv_0_lt_compat; lra).
  assert (Htx : 1 <= tc * x).
  { apply Rmult_le_reg_l with (/ tc); [exact Hi |].
    rewrite <- Rmult_assoc, Rinv_l by lra. lra. }
  assert (Hsplit : exp (- tc * x)
                   = exp (- tc * y) * exp (tc * (y - x))).
  { rewrite <- exp_plus. f_equal. lra. }
  assert (Ey : 0 < exp (- tc * y)) by apply exp_pos.
  assert (Hz : 1 + tc * (y - x) < exp (tc * (y - x)))
    by (apply exp_ineq1; nra).
  assert (Hk : y < x * exp (tc * (y - x))) by nra.
  rewrite Hsplit. nra.
Qed.

(** For a non-negative observed rate the residual is negative at the
    lower end of the bracket. *)
Lemma bracket_lower_negative (obs tc : R) :
  0 <= obs -> 0 <= tc -> residual (obs - 50000) obs tc < 0.
Proof.
  intros Hobs Htc. unfold residual.
  assert (E : 0 < exp (- tc * (obs - 50000))) by apply exp_pos.
  destruct (Rle_or_lt (obs - 50000) 0) as [Hn|Hp].
  - destruct (Req_dec obs 0) as [->|Hne]; nra.
  - assert (E1 : exp (- tc * (obs - 50000)) <= 1).
    { rewrite <- exp_0. destruct (Req_dec (- tc * (obs - 50000)) 0) as [->|N].
      - lra.
      - left. apply exp_increasing. nra. }
    nra.
Qed.

Lemma exp_double (x : R) : exp (2 * x) = exp x * exp x.
Proof. rewrite <- exp_plus. f_equal. lra. Qed.

Lemma exp_ten_lower (x : R) : 10 <= x -> 1024 <= exp x.
Proof.
  intros Hx.
  assert (H1 : 2 <= exp (x / 10)).
  { pose proof (exp_ineq1_le (x / 10)). lra. }
  assert (H2 : 4 <= exp (2 * (x / 10))) by (rewrite exp_double; nra).
  assert (H4 : 16 <= exp (2 * (2 * (x / 10)))) by (rewrite exp_double; nra).
  assert (H8 : 256 <= exp (2 * (2 * (2 * (x / 10)))))
    by (rewrite exp_double; nra).
  replace x with (2 * (2 * (2 * (x / 10))) + 2 * (x / 10)) by lra.
  rewrite exp_plus. nra.
Qed.

(** With a time constant that is not positive the curve rises on the
    non-negative rates. *)
Lemma residual_increasing_nonpos (tc obs x y : R) :
  tc <= 0 -> 0 <= x -> x < y ->
  residual x obs tc < residual y obs tc.
Proof.
  intros Htc Hx Hxy. unfold residual.
  assert (Ex : 0 < exp (- tc * x)) by apply exp_pos.
  assert (Hm : exp (- tc * x) <= exp (- tc * y)).
  { destruct (Req_dec (- tc * x) (- tc * y)) as [->|N]; [lra |].
    left. apply exp_increasing. nra. }
  nra.
Qed.

Lemma residual_negative_below_zero (tc obs x : R) :
  x <= 0 -> 0 < obs -> residual x obs tc < 0.
Proof.
  intros Hx Hobs. unfold residual.
  pose proof (exp_pos (- tc * x)). nra.
Qed.

Lemma observed_rate_pos (actual tc : R) :
  0 < actual -> 0 < observed_rate actual tc.
Proof.
  intros Ha. unfold observed_rate.
  apply Rmult_lt_0_compat; [exact Ha | apply exp_pos].
Qed.

(** The bracket of the round trip.  When the actual rate lies in the
    bracket and the residual is positive at the upper end (or the actual
    rate is that end, on the rising branch), the residual changes sign
    over the bracket and the actual rate is its only zero there. *)
Lemma roundtrip_bracket (actual tc : R) :
  0 < actual ->
  observed_rate actual tc - 50000 <= actual <= observed_rate actual tc + 1e5 ->
  (0 < residual (observed_rate actual tc + 1e5) (observed_rate actual tc) tc
   \/ (actual = observed_rate actual tc + 1e5 /\ tc * actual <= 1)) ->
  (residual (observed_rate actual tc - 50000) (observed_rate actual tc) tc
   <= 0
   /\ 0 <= residual (observed_rate actual tc + 1e5)
             (observed_rate actual tc) tc)
  /\ (forall r,
        observed_rate actual tc - 50000 <= r
          <= observed_rate actual tc + 1e5 ->
        residual r (observed_rate actual tc) tc = 0 -> r = actual).
Proof.
  intros Ha [Hlo Hhi] Hup.
  pose proof (observed_rate_pos actual tc Ha) as Hobs.
  pose proof (residual_at_actual actual tc) as Hz.
  set (obs := observed_rate actual tc) in *.
  assert (Hhi0 : 0 <= residual (obs + 1e5) obs tc).
  { destruct Hup as [H|[H _]]; [lra |]. rewrite <- H. lra. }
  destruct (Rle_or_lt tc 0) as [Htc|Htc].
  - (* time constant not positive: one zero, on the positive rates *)
    split; [split; [| exact Hhi0] |].
    + destruct (Rle_or_lt (obs - 50000) 0) as [Hn|Hp].
      * left. apply residual_negative_below_zero; assumption.
      * destruct (Req_dec (obs - 50000) actual) as [E|N];
          [rewrite E; lra |].
        left. rewrite <- Hz.
        apply residual_increasing_nonpos; lra.
    + intros r _ Hroot.
      assert (Hr : 0 < r).
      { destruct (Rle_or_lt r 0) as [Hn|Hp]; [| exact Hp].
        pose proof (residual_negative_below_zero tc obs r Hn Hobs). lra. }
      destruct (Rtotal_order r actual) as [Hlt|[Heq|Hgt]]; [| exact Heq |].
      * pose proof (residual_increasing_nonpos tc obs r actual Htc). lra.
      * pose proof (residual_increasing_nonpos tc obs actual r Htc). lra.
  - (* positive time constant: the actual rate is on the rising branch *)
    assert (Hi : 0 < / tc) by (apply Rinv_0_lt_compat; exact Htc).
    assert (Hrise : actual <= / tc).
    { destruct Hup as [H|[_ H]].
      - destruct (Rle_or_lt actual (/ tc)) as [Hle|Hgt]; [exact Hle |].
        exfalso.
        destruct (Req_dec actual (obs + 1e5)) as [E|N];
          [rewrite <- E in H; lra |].
        assert (Hd : residual (obs + 1e5) obs tc < residual actual obs tc)
          by (apply residual_decreasing; lra).
        lra.
      - apply Rmult_le_reg_l with tc; [exact Htc |].
        rewrite Rinv_r by lra. exact H. }
    split; [split; [| exact Hhi0] |].
    + left. apply bracket_lower_negative; lra.
    + intros r [_ Hr] Hroot.
      destruct (Rle_or_lt r (/ tc)) as [Hle|Hgt].
      * destruct (Rtotal_order r actual) as [Hlt|[Heq|Hgt]]; [| exact Heq |].
        -- pose proof (residual_increasing tc obs r actual Htc Hlt Hrise).
           lra.
        -- pose proof (residual_increasing tc obs actual r Htc Hgt Hle).
           lra.
      * exfalso. destruct Hup as [H|[H _]]; [| lra].
        destruct (Req_dec r (obs + 1e5)) as [E|N];
          [rewrite E in Hroot; lra |].
        assert (Hd : residual (obs + 1e5) obs tc < residual r obs tc)
          by (apply residual_decreasing; lra).
        lra.
Qed.

(** C2 (as amended).  For positive [actual_rate] and [integration_time],
    with [observed_rate = actual_rate * exp(-time_constant *
    actual_rate)] and [fast_events = observed_rate * integration_time]:
    when [actual_rate] lies in the bracket [observed_rate - 5e4,
    observed_rate + 1e5] and the residual is positive at the upper end
    of the bracket (or [actual_rate] is that upper end, with
    [time_constant * actual_rate <= 1]), the residual changes sign over
    the bracket, its only zero there is [actual_rate], and a [brentq]
    that honours its contract on this call makes the fitted fast
    countrate equal [actual_rate] within the solver tolerance;
    [fcorrect_deadtime] then divides by the live time formed with that
    rate. *)
Theorem deadtime_roundtrip
  (brentq : (npfloat -> npfloat) -> npfloat -> npfloat -> pyresult npfloat)
  (xtol rtol actual tc it : R) :
  0 < actual -> 0 < it ->
  observed_rate actual tc - 50000 <= actual <= observed_rate actual tc + 1e5 ->
  (0 < residual (observed_rate actual tc + 1e5) (observed_rate actual tc) tc
   \/ (actual = observed_rate actual tc + 1e5 /\ tc * actual <= 1)) ->
  brentq_contract_at brentq xtol rtol
    (fun x =>
       fdead_time_zero_function x (Fin (observed_rate actual tc)) (Fin tc))
    (observed_rate actual tc - 50000) (observed_rate actual tc + 1e5) ->
  (exists fa fb,
      fdead_time_zero_function (Fin (observed_rate actual tc - 50000))
        (Fin (observed_rate actual tc)) (Fin tc) = Fin fa
      /\ fdead_time_zero_function (Fin (observed_rate actual tc + 1e5))
           (Fin (observed_rate actual tc)) (Fin tc) = Fin fb
      /\ fa <= 0 <= fb)
  /\ (forall r,
        observed_rate actual tc - 50000 <= r
          <= observed_rate actual tc + 1e5 ->
        fdead_time_zero_function (Fin r) (Fin (observed_rate actual tc))
          (Fin tc) = Fin 0 ->
        r = actual)
  /\ exists x0,
       fitted_fast_countrate_of brentq
         (vec [Fin (observed_rate actual tc * it)]) (Fin it) (Fin tc)
       = Ok (vec [Fin x0])
       /\ Rabs (actual - x0) <= xtol + rtol * Rabs x0
       /\ forall raw slow,
            fcorrect_deadtime brentq (vec [raw]) (vec [slow])
              (vec [Fin (observed_rate actual tc * it)]) (Fin it)
              (Some (Fin tc))
            = Ok (vec [np_div raw
                         (nan_to_num1
                            (np_div (np_div slow (Fin x0)) (Fin it)))]).
Proof.
  intros Ha Hit Hin Hup Hcontract.
  destruct (roundtrip_bracket actual tc Ha Hin Hup) as [[Hlo Hhi] Huniq].
  set (obs := observed_rate actual tc) in *.
  split.
  { exists (residual (obs - 50000) obs tc), (residual (obs + 1e5) obs tc).
    rewrite !zero_function_fin. repeat split; try reflexivity; assumption. }
  split.
  { intros r Hr Hroot. rewrite zero_function_fin in Hroot.
    apply Huniq; [exact Hr | inversion Hroot; reflexivity]. }
  unfold brentq_contract_at in Hcontract.
  rewrite !zero_function_fin in Hcontract.
  rewrite Rltb_false in Hcontract by nra.
  destruct Hcontract as [x0 [r [Hcall [_ [Hr [Hroot Htol]]]]]].
  rewrite zero_function_fin in Hroot.
  assert (r = actual)
    by (apply Huniq; [exact Hr | inversion Hroot; reflexivity]).
  subst r.
  assert (Hsolve : mapM (solve_rate brentq (Fin tc))
                     (map (fun x => np_div x (Fin it)) [Fin (obs * it)])
                   = Ok [Fin x0]).
  { cbn [map mapM]. rewrite np_div_fin by lra.
    replace (obs * it / it) with obs by (field; lra).
    unfold solve_rate. cbn [np_sub np_add np_neg].
    unfold Rminus in Hcall. rewrite Hcall. reflexivity. }
  exists x0. split; [| split; [exact Htol |]].
  - rewrite fitted_fast_countrate_vec, Hsolve. reflexivity.
  - intros raw slow. rewrite correct_deadtime_vec by reflexivity.
    cbn [arg]. rewrite Hsolve. reflexivity.
Qed.

(** A stand-in that answers the actual rate honours the contract on the
    round-trip call. *)
Lemma brentq_const_contract (xtol rtol actual tc : R) :
  0 <= xtol -> 0 <= rtol -> 0 < actual -> 0 < tc ->
  actual <= observed_rate actual tc + 1e5 ->
  observed_rate actual tc + 1e5 <= / tc ->
  brentq_contract_at (brentq_const (Fin actual)) xtol rtol
    (fun x =>
       fdead_time_zero_function x (Fin (observed_rate actual tc)) (Fin tc))
    (observed_rate actual tc - 50000) (observed_rate actual tc + 1e5).
Proof.
  intros Hx Hr Ha Htc Hin Hpeak.
  destruct (bracket_signs actual tc Ha Htc Hin Hpeak) as [Hlo Hhi].
  pose proof (observed_below_actual actual tc Ha Htc) as Hobs.
  unfold brentq_contract_at. rewrite !zero_function_fin.
  rewrite Rltb_false by nra.
  exists actual, actual.
  split; [reflexivity |]. split; [lra |]. split; [lra |].
  split; [rewrite zero_function_fin, residual_at_actual; reflexivity |].
  rewrite Rminus_diag, Rabs_R0.
  pose proof (Rabs_pos actual). nra.
Qed.

Lemma deadtime_roundtrip_witness :
  0 < 1000 /\ 0 < 2
  /\ observed_rate 1000 3.15e-7 - 50000 <= 1000
       <= observed_rate 1000 3.15e-7 + 1e5
  /\ 0 < residual (observed_rate 1000 3.15e-7 + 1e5)
           (observed_rate 1000 3.15e-7) 3.15e-7
  /\ exists x0,
       fitted_fast_countrate_of (brentq_const (Fin 1000))
         (vec [Fin (observed_rate 1000 3.15e-7 * 2)]) (Fin 2) (Fin 3.15e-7)
       = Ok (vec [Fin x0])
       /\ Rabs (1000 - x0) <= 2e-12 + 0 * Rabs x0.
Proof.
  assert (Ha : 0 < 1000) by lra.
  assert (Hit : 0 < 2) by lra.
  assert (Htc : 0 < 3.15e-7) by lra.
  pose proof (observed_below_actual 1000 3.15e-7 Ha Htc) as Hobs.
  assert (Hin : observed_rate 1000 3.15e-7 - 50000 <= 1000
                <= observed_rate 1000 3.15e-7 + 1e5) by lra.
  assert (Hpeak : observed_rate 1000 3.15e-7 + 1e5 <= / 3.15e-7) by lra.
  assert (Hup : 0 < residual (observed_rate 1000 3.15e-7 + 1e5)
                      (observed_rate 1000 3.15e-7) 3.15e-7).
  { rewrite <- (residual_at_actual 1000 3.15e-7) at 1.
    apply residual_increasing; lra. }
  assert (Hxtol : 0 <= 2e-12) by lra.
  destruct (deadtime_roundtrip (brentq_const (Fin 1000)) 2e-12 0 1000
              3.15e-7 2 Ha Hit Hin (or_introl Hup)
              (brentq_const_contract 2e-12 0 1000 3.15e-7 Hxtol
                 (Rle_refl 0) Ha Htc (proj2 Hin) Hpeak))
    as [_ [_ [x0 [H1 [H2 _]]]]].
  split; [exact Ha |]. split; [exact Hit |]. split; [exact Hin |].
  split; [exact Hup |].
  exists x0. split; assumption.
Defined.

Lemma observed_rate_1e6 : observed_rate 1e6 3.15e-7 < 8e5.
Proof.
  assert (H : 1 + 0.315 < exp 0.315) by (apply exp_ineq1; lra).
  assert (E : exp (Ropp 0.315) < 0.8).
  { rewrite exp_Ropp.
    apply Rlt_trans with (/ (1 + 0.315)).
    - apply Rinv_lt_contravar; [| exact H].
      apply Rmult_lt_0_compat; [lra | apply exp_pos].
    - lra. }
  unfold observed_rate.
  replace (Ropp 3.15e-7 * 1e6) with (Ropp 0.315) by lra.
  lra.
Qed.

Lemma observed_rate_2e7 : 0 < observed_rate 2e7 3.15e-7 < 2e5.
Proof.
  split; [apply observed_rate_pos; lra |].
  assert (H1 : 1 + 0.7875 <= exp 0.7875) by apply exp_ineq1_le.
  assert (H2 : 3.19 <= exp (2 * 0.7875)) by (rewrite exp_double; nra).
  assert (H4 : 10.1 <= exp (2 * (2 * 0.7875)))
    by (rewrite exp_double; nra).
  assert (H8 : 102 <= exp (2 * (2 * (2 * 0.7875))))
    by (rewrite exp_double; nra).
  replace (2 * (2 * (2 * 0.7875))) with 6.3 in H8 by lra.
  assert (E : exp (Ropp 6.3) <= / 102).
  { rewrite exp_Ropp. apply Rinv_le_contravar; lra. }
  unfold observed_rate.
  replace (Ropp 3.15e-7 * 2e7) with (Ropp 6.3) by lra.
  lra.
Qed.

Lemma observed_rate_5000 : 2500 <= observed_rate 5000 1e-4 < 5000.
Proof.
  unfold observed_rate.
  replace (Ropp 1e-4 * 5000) with (Ropp 0.5) by lra.
  assert (H1 : 1 + Ropp 0.5 <= exp (Ropp 0.5)) by apply exp_ineq1_le.
  assert (H2 : exp (Ropp 0.5) < 1).
  { rewrite <- exp_0. apply exp_increasing. lra. }
  lra.
Qed.

(** C2, counterexample.  Three round trips that do not recover the
    actual rate.  (1) [actual_rate = 1e6] with the default time constant
    3.15e-7: every point of the bracket is more than 1e5 away from the
    actual rate and none of them is a zero of the residual; a [brentq]
    that honours its contract raises [ValueError].  (2) [actual_rate =
    2e7], same time constant, on the falling branch: the residual does
    change sign over the bracket, [brentq] returns a rate, and that rate
    is more than 1e7 away from the actual one.  (3) [actual_rate = 5000]
    with time constant 1e-4: the actual rate lies in the bracket, but
    the residual is negative at both ends and [brentq] raises
    [ValueError]. *)
Lemma bracket_misses_actual_rate :
  (0 < 1e6
   /\ (forall x,
         observed_rate 1e6 3.15e-7 - 50000 <= x
           <= observed_rate 1e6 3.15e-7 + 1e5 ->
         fdead_time_zero_function (Fin x) (Fin (observed_rate 1e6 3.15e-7))
           (Fin 3.15e-7) <> Fin 0
         /\ 1e5 < Rabs (1e6 - x))
   /\ (forall brentq xtol rtol,
         brentq_contract_at brentq xtol rtol
           (fun x =>
              fdead_time_zero_function x (Fin (observed_rate 1e6 3.15e-7))
                (Fin 3.15e-7))
           (observed_rate 1e6 3.15e-7 - 50000)
           (observed_rate 1e6 3.15e-7 + 1e5) ->
         fitted_fast_countrate_of brentq
           (vec [Fin (observed_rate 1e6 3.15e-7 * 1)]) (Fin 1) (Fin 3.15e-7)
         = Raise ValueError))
  /\ (0 < 2e7
      /\ 0 < residual (observed_rate 2e7 3.15e-7 + 1e5)
               (observed_rate 2e7 3.15e-7) 3.15e-7
      /\ (forall brentq xtol rtol,
            brentq_contract_at brentq xtol rtol
              (fun x =>
                 fdead_time_zero_function x
                   (Fin (observed_rate 2e7 3.15e-7)) (Fin 3.15e-7))
              (observed_rate 2e7 3.15e-7 - 50000)
              (observed_rate 2e7 3.15e-7 + 1e5) ->
            exists x0,
              fitted_fast_countrate_of brentq
                (vec [Fin (observed_rate 2e7 3.15e-7 * 1)]) (Fin 1)
                (Fin 3.15e-7) = Ok (vec [Fin x0])
              /\ 1e7 < Rabs (2e7 - x0)))
  /\ (0 < 5000
      /\ observed_rate 5000 1e-4 - 50000 <= 5000
           <= observed_rate 5000 1e-4 + 1e5
      /\ (forall brentq xtol rtol,
            brentq_contract_at brentq xtol rtol
              (fun x =>
                 fdead_time_zero_function x (Fin (observed_rate 5000 1e-4))
                   (Fin 1e-4))
              (observed_rate 5000 1e-4 - 50000)
              (observed_rate 5000 1e-4 + 1e5) ->
            fitted_fast_countrate_of brentq
              (vec [Fin (observed_rate 5000 1e-4 * 1)]) (Fin 1) (Fin 1e-4)
            = Raise ValueError)).
Proof.
  split; [| split].
  - (* 1e6: the bracket ends below the actual rate *)
    set (obs := observed_rate 1e6 3.15e-7).
    assert (Hobs : obs < 8e5) by exact observed_rate_1e6.
    assert (Hpeak : 1e6 <= / 3.15e-7) by lra.
    assert (Htc : 0 < 3.15e-7) by lra.
    pose proof (residual_at_actual 1e6 3.15e-7) as Hz. fold obs in Hz.
    assert (Hneg : forall x, x <= obs + 1e5 -> residual x obs 3.15e-7 < 0).
    { intros x Hx. rewrite <- Hz. apply residual_increasing; lra. }
    split; [lra |]. split.
    + intros x [_ Hx]. split.
      * rewrite zero_function_fin. intros E. inversion E as [E'].
        pose proof (Hneg x Hx). lra.
      * rewrite Rabs_pos_eq by lra. lra.
    + intros brentq xtol rtol Hcontract.
      unfold brentq_contract_at in Hcontract.
      rewrite !zero_function_fin in Hcontract.
      pose proof (Hneg (obs - 50000)) as Hlo.
      pose proof (Hneg (obs + 1e5)) as Hhi.
      rewrite Rltb_true in Hcontract
        by (assert (obs - 50000 <= obs + 1e5) by lra; nra).
      rewrite fitted_fast_countrate_vec. cbn [map mapM].
      rewrite np_div_fin by lra.
      replace (obs * 1 / 1) with obs by lra.
      unfold solve_rate. cbn [np_sub np_add np_neg].
      unfold Rminus in Hcontract. rewrite Hcontract. reflexivity.
  - (* 2e7: a root is found, the one of the rising branch *)
    pose proof observed_rate_2e7 as Hobs.
    set (obs := observed_rate 2e7 3.15e-7) in *.
    assert (Hlo : residual (obs - 50000) obs 3.15e-7 < 0)
      by (apply bracket_lower_negative; lra).
    assert (Hhi : 0 < residual (obs + 1e5) obs 3.15e-7).
    { unfold residual.
      match goal with
      | |- context [exp ?e] => pose proof (exp_ineq1_le e) as He
      end.
      assert (Hsq : (obs + 1e5) * (obs + 1e5) < 9e10) by nra.
      match goal with
      | |- context [exp ?e] =>
          assert (Hm : (obs + 1e5) * (1 + e) <= (obs + 1e5) * exp e)
            by (apply Rmult_le_compat_l; lra)
      end.
      nra. }
    split; [lra |]. split; [exact Hhi |].
    intros brentq xtol rtol Hcontract.
    unfold brentq_contract_at in Hcontract.
    rewrite !zero_function_fin in Hcontract.
    rewrite Rltb_false in Hcontract by nra.
    destruct Hcontract as [x0 [r [Hcall [Hx0 _]]]].
    exists x0. split.
    + rewrite fitted_fast_countrate_vec. cbn [map mapM].
      rewrite np_div_fin by lra.
      replace (obs * 1 / 1) with obs by lra.
      unfold solve_rate. cbn [np_sub np_add np_neg].
      unfold Rminus in Hcall. rewrite Hcall. reflexivity.
    + rewrite Rabs_pos_eq by lra. lra.
  - (* 5000 with time constant 1e-4: no sign change *)
    pose proof observed_rate_5000 as Hobs.
    set (obs := observed_rate 5000 1e-4) in *.
    assert (Hlo : residual (obs - 50000) obs 1e-4 < 0)
      by (apply bracket_lower_negative; lra).
    assert (Hhi : residual (obs + 1e5) obs 1e-4 < 0).
    { unfold residual.
      assert (He : 1024 <= exp (1e-4 * (obs + 1e5)))
        by (apply exp_ten_lower; lra).
      assert (Hinv : exp (Ropp 1e-4 * (obs + 1e5)) <= / 1024).
      { replace (Ropp 1e-4 * (obs + 1e5)) with (- (1e-4 * (obs + 1e5)))
          by lra.
        rewrite exp_Ropp. apply Rinv_le_contravar; lra. }
      pose proof (exp_pos (Ropp 1e-4 * (obs + 1e5))) as Hp.
      assert (Hm : (obs + 1e5) * exp (Ropp 1e-4 * (obs + 1e5))
                   <= (obs + 1e5) * / 1024)
        by (apply Rmult_le_compat_l; lra).
      lra. }
    split; [lra |]. split; [lra |].
    intros brentq xtol rtol Hcontract.
    unfold brentq_contract_at in Hcontract.
    rewrite !zero_function_fin in Hcontract.
    rewrite Rltb_true in Hcontract by nra.
    rewrite fitted_fast_countrate_vec. cbn [map mapM].
    rewrite np_div_fin by lra.
    replace (obs * 1 / 1) with obs by lra.
    unfold solve_rate. cbn [np_sub np_add np_neg].
    unfold Rminus in Hcontract. rewrite Hcontract. reflexivity.
Qed.

(* ================================================================== *)
(** ** Transmission: auto-normalisation *)

Lemma iter_vec_aux (rest done : list npfloat) :
  mapM (index0 (vec (done ++ rest))) (seq (length done) (length rest))
  = Ok (map Scalar rest).
Proof.
  revert done. induction rest as [|c rest IH]; intros done; [reflexivity |].
  cbn [length seq mapM map]. rewrite index0_vec. cbn [bind].
  replace (done ++ c :: rest) with ((done ++ [c]) ++ rest)
    by (rewrite <- app_assoc; reflexivity).
  replace (S (length done)) with (length (done ++ [c]))
    by (rewrite length_app; simpl; lia).
  rewrite IH. reflexivity.
Qed.

(** Iterating over a one-dimensional array yields its elements. *)
Lemma iter_vec (l : list npfloat) : iter (vec l) = Ok (map Scalar l).
Proof.
  unfold iter, len. cbn [vec shape bind].
  apply (iter_vec_aux l []).
Qed.

Lemma insert_sorted_scalars (x : npfloat) (s : list npfloat) :
  insert_sorted item_lt (Scalar x) (map Scalar s)
  = Ok (map Scalar (insert_float x s)).
Proof.
  induction s as [|y s IH]; [reflexivity |].
  cbn [map insert_sorted insert_float item_lt bind].
  destruct (np_lt y x); [| reflexivity].
  rewrite IH. reflexivity.
Qed.

Lemma sorted_by_scalars (l : list npfloat) :
  sorted_by item_lt (map Scalar l) = Ok (map Scalar (sort_floats l)).
Proof.
  induction l as [|x l IH]; [reflexivity |].
  cbn [map sorted_by sort_floats]. rewrite IH. cbn [bind].
  apply insert_sorted_scalars.
Qed.

Lemma sorted_vec (l : list npfloat) :
  sorted (vec l) = Ok (map Scalar (sort_floats l)).
Proof. unfold sorted. rewrite iter_vec. apply sorted_by_scalars. Qed.

Lemma insert_float_perm (x : npfloat) (l : list npfloat) :
  Permutation (insert_float x l) (x :: l).
Proof.
  induction l as [|y l IH]; simpl; [apply Permutation_refl |].
  destruct (np_lt y x); [| apply Permutation_refl].
  apply perm_trans with (y :: x :: l); [| apply perm_swap].
  apply perm_skip. exact IH.
Qed.

Lemma sort_floats_perm (l : list npfloat) : Permutation (sort_floats l) l.
Proof.
  induction l as [|x l IH]; simpl; [apply perm_nil |].
  apply perm_trans with (x :: sort_floats l);
    [apply insert_float_perm | apply perm_skip; exact IH].
Qed.

Lemma np_lt_asym (x y : npfloat) : np_lt y x = true -> np_le y x.
Proof.
  unfold np_le. destruct x, y; simpl; try reflexivity; try discriminate.
  intros H. apply Rltb_spec in H. apply Rltb_false. lra.
Qed.

Lemma np_le_trans (x y z : npfloat) :
  y <> NaN -> np_le x y -> np_le y z -> np_le x z.
Proof.
  unfold np_le. intros Hy.
  destruct x, y, z; simpl; try reflexivity; try discriminate;
    try contradiction.
  unfold Rltb. intros H1 H2.
  repeat match goal with
         | H : context [Rlt_dec ?a ?b] |- _ => destruct (Rlt_dec a b)
         | |- context [Rlt_dec ?a ?b] => destruct (Rlt_dec a b)
         end; try reflexivity; try discriminate; lra.
Qed.

Lemma insert_float_sorted (x : npfloat) (l : list npfloat) :
  Forall (fun y => y <> NaN) l ->
  StronglySorted np_le l -> StronglySorted np_le (insert_float x l).
Proof.
  intros Hn Hs. induction Hs as [|y l Hs IH Hy]; simpl.
  - constructor; constructor.
  - inversion Hn as [|? ? Hyn Hln]; subst.
    destruct (np_lt y x) eqn:E.
    + constructor; [apply IH; exact Hln |].
      apply (Permutation_Forall (Permutation_sym (insert_float_perm x l))).
      constructor; [apply np_lt_asym; exact E | exact Hy].
    + constructor; [constructor; assumption |].
      constructor; [exact E |].
      apply Forall_impl with (P := np_le y); [| exact Hy].
      intros z Hz. apply (np_le_trans x y z Hyn E Hz).
Qed.

Lemma sort_floats_sorted (l : list npfloat) :
  Forall (fun y => y <> NaN) l -> StronglySorted np_le (sort_floats l).
Proof.
  induction 1 as [|x l Hx Hl IH]; simpl; [constructor |].
  apply insert_float_sorted; [| exact IH].
  apply (Permutation_Forall (Permutation_sym (sort_floats_perm l))).
  exact Hl.
Qed.

Lemma py_getitem_from_end {A : Type} (l : list A) (k : nat) (d : A) :
  (0 < k <= length l)%nat ->
  py_getitem l (- Z.of_nat k) = Ok (nth (length l - k) l d).
Proof.
  intros Hk. unfold py_getitem.
  assert (E1 : (- Z.of_nat k <? 0)%Z = true) by (apply Z.ltb_lt; lia).
  rewrite E1.
  assert (E2 : ((0 <=? - Z.of_nat k + Z.of_nat (length l))
                && (- Z.of_nat k + Z.of_nat (length l)
                    <? Z.of_nat (length l)))%Z = true).
  { apply andb_true_intro. split; [apply Z.leb_le | apply Z.ltb_lt]; lia. }
  rewrite E2.
  replace (Z.to_nat (- Z.of_nat k + Z.of_nat (length l)))
    with (length l - k)%nat by lia.
  destruct (nth_error l (length l - k)) as [x|] eqn:E.
  - f_equal. symmetry. apply nth_error_nth. exact E.
  - apply nth_error_None in E. lia.
Qed.

Lemma dark_ratio_length (PIN reference : list npfloat) (pd rd : npfloat) :
  length PIN = length reference ->
  length (dark_ratio PIN reference pd rd) = length PIN.
Proof.
  intros H. unfold dark_ratio.
  rewrite zip_with_length; rewrite !length_map; congruence.
Qed.

(** X20. Auto-normalisation where it works.  For one-dimensional arrays
    [PIN] and [reference] of one length, not empty, whose dark-corrected
    ratio holds no NaN, [fcompute_transmission] with [clear_ratio = 0]
    sorts the ratio and divides every element by the value next to last
    in ascending order, the second-largest; a one-element array is
    divided by its single element. *)
Theorem transmission_auto_normalize (PIN reference : list npfloat)
  (clear_ratio PIN_dark ref_dark : option npfloat) :
  arg clear_ratio (Fin 0) = Fin 0 ->
  length PIN = length reference ->
  PIN <> [] ->
  Forall (fun x => x <> NaN)
    (dark_ratio PIN reference (arg PIN_dark (Fin 0))
       (arg ref_dark (Fin 0))) ->
  exists s d,
    Permutation s
      (dark_ratio PIN reference (arg PIN_dark (Fin 0))
         (arg ref_dark (Fin 0)))
    /\ StronglySorted np_le s
    /\ d = nth (length s - (if Nat.ltb 1 (length s) then 2 else 1)) s NaN
    /\ (forall x, s = [x] -> d = x)
    /\ fcompute_transmission (vec PIN) (vec reference) clear_ratio PIN_dark
         ref_dark
       = Ok (vec (map (fun x => np_div x d)
                    (dark_ratio PIN reference (arg PIN_dark (Fin 0))
                       (arg ref_dark (Fin 0))))).
Proof.
  intros Hclear Hlen Hne Hnan.
  set (ratio := dark_ratio PIN reference (arg PIN_dark (Fin 0))
                  (arg ref_dark (Fin 0))) in *.
  assert (Hrl : length ratio = length PIN)
    by (apply dark_ratio_length; exact Hlen).
  assert (Hsl : length (sort_floats ratio) = length ratio)
    by (apply Permutation_length, sort_floats_perm).
  assert (Hpos : (0 < length ratio)%nat).
  { rewrite Hrl. destruct PIN; [contradiction | simpl; lia]. }
  set (s := sort_floats ratio) in *.
  set (k := if Nat.ltb 1 (length s) then 2%nat else 1%nat).
  exists s, (nth (length s - k) s NaN).
  split; [apply sort_floats_perm |].
  split; [apply sort_floats_sorted; exact Hnan |].
  split; [reflexivity |].
  split.
  { intros x Hx. unfold k. rewrite Hx. reflexivity. }
  unfold fcompute_transmission. rewrite Hclear, truthy_zero.
  rewrite arr_map2_same
    by (unfold vec, arr_map; cbn [shape]; congruence).
  cbn [bind arr_map shape data vec].
  fold (dark_ratio PIN reference (arg PIN_dark (Fin 0))
          (arg ref_dark (Fin 0))).
  fold ratio. rewrite <- Hrl.
  change (mk_ndarray [length ratio] ratio) with (vec ratio).
  rewrite sorted_vec. fold s. cbn [bind len vec shape].
  replace (if Nat.ltb 1 (length ratio) then (-2)%Z else (-1)%Z)
    with (- Z.of_nat k)%Z.
  2:{ unfold k. rewrite Hsl. destruct (Nat.ltb 1 (length ratio)); reflexivity. }
  rewrite (py_getitem_from_end (map Scalar s) k (Scalar NaN)).
  2:{ rewrite length_map. unfold k.
      destruct (Nat.ltb 1 (length s)) eqn:E.
      - apply Nat.ltb_lt in E. lia.
      - lia. }
  rewrite length_map.
  rewrite (map_nth Scalar s NaN). cbn [bind arr_div_item arr_map shape data].
  unfold vec. rewrite length_map. reflexivity.
Qed.

Lemma transmission_auto_normalize_witness :
  arg None (Fin 0) = Fin 0
  /\ length [Fin 3; Fin 1; Fin 2] = length [Fin 1; Fin 1; Fin 1]
  /\ [Fin 3; Fin 1; Fin 2] <> []
  /\ Forall (fun x => x <> NaN)
       (dark_ratio [Fin 3; Fin 1; Fin 2] [Fin 1; Fin 1; Fin 1] (Fin 0)
          (Fin 0))
  /\ exists s d,
       Permutation s
         (dark_ratio [Fin 3; Fin 1; Fin 2] [Fin 1; Fin 1; Fin 1] (Fin 0)
            (Fin 0))
       /\ StronglySorted np_le s
       /\ d = nth (length s - (if Nat.ltb 1 (length s) then 2 else 1)) s NaN
       /\ fcompute_transmission (vec [Fin 3; Fin 1; Fin 2])
            (vec [Fin 1; Fin 1; Fin 1]) None None None
          = Ok (vec (map (fun x => np_div x d)
                       (dark_ratio [Fin 3; Fin 1; Fin 2]
                          [Fin 1; Fin 1; Fin 1] (Fin 0) (Fin 0)))).
Proof.
  assert (Hne : [Fin 3; Fin 1; Fin 2] <> []) by discriminate.
  assert (Hnan : Forall (fun x => x <> NaN)
                   (dark_ratio [Fin 3; Fin 1; Fin 2] [Fin 1; Fin 1; Fin 1]
                      (Fin 0) (Fin 0))).
  { unfold dark_ratio. cbn [map zip_with np_sub np_add np_neg np_div].
    repeat constructor; np_decide; discriminate. }
  destruct (transmission_auto_normalize [Fin 3; Fin 1; Fin 2]
              [Fin 1; Fin 1; Fin 1] None None None eq_refl eq_refl Hne Hnan)
    as [s [d [H1 [H2 [H3 [_ H5]]]]]].
  split; [reflexivity |]. split; [reflexivity |]. split; [exact Hne |].
  split; [exact Hnan |].
  exists s, d. repeat (split; [assumption |]). exact H5.
Defined.

(** C3, evaluated where the claim fails.  The comment in the source
    says the ratio is divided by its second to maximum value, but
    [sorted] and [len] are applied to the array itself, not to its
    flattened copy.  A 1 x 2 array has one item along the first axis, the
    whole row: [len] is 1, the row itself is taken as divisor and every
    element is divided by itself.  The result is [[1, 1]], where dividing
    by the second-largest value of the flattened ratio [2, 4] gives
    [[1, 2]]. *)
Lemma transmission_row_not_flattened :
  fcompute_transmission (mk_ndarray [1; 2]%nat [Fin 2; Fin 4])
    (mk_ndarray [1; 2]%nat [Fin 1; Fin 1]) (Some (Fin 0)) None None
  = Ok (mk_ndarray [1; 2]%nat [Fin 1; Fin 1])
  /\ spec_auto_normalize (mk_ndarray [1; 2]%nat [Fin 2; Fin 4])
     = mk_ndarray [1; 2]%nat [Fin 1; Fin 2]
  /\ mk_ndarray [1; 2]%nat [Fin 1; Fin 1]
     <> mk_ndarray [1; 2]%nat [Fin 1; Fin 2].
Proof.
  split; [| split].
  - unfold fcompute_transmission. cbn [arg].
    rewrite arr_map2_same by reflexivity.
    rewrite truthy_zero.
    cbn. np_decide. cbn. np_decide.
    repeat f_equal; lra.
  - unfold spec_auto_normalize. cbn. np_decide. cbn. np_decide.
    unfold arr_map. cbn. np_decide.
    repeat f_equal; lra.
  - intros E. inversion E. lra.
Qed.

(* ================================================================== *)
(** ** The two fluorescence pipelines *)

(** [fcompute_fluorescence_fit_fast] written with the shared helper in
    place of its inline correction. *)
Lemma fit_fast_unfold
  (brentq : (npfloat -> npfloat) -> npfloat -> npfloat -> pyresult npfloat)
  (raw slow fast radiography reference : farray)
  (integration_time abs_coeff : option npfloat) (baseline : option bool)
  (time_const : option npfloat) :
  fcompute_fluorescence_fit_fast brentq raw slow fast radiography reference
    integration_time abs_coeff baseline time_const
  = (final <- fcorrect_deadtime brentq raw slow fast
                (arg integration_time (Fin 1))
                (Some (arg time_const (Fin 3.13e-7))) ;;
     final <- arr_idiv final reference ;;
     correction <- fcorrect_incident_intensity_colocated
                     (ext_lengths_of radiography (arg abs_coeff (Fin 0))) ;;
     final <- arr_idiv final correction ;;
     subtract_baseline (arg baseline false) final).
Proof.
  unfold fcompute_fluorescence_fit_fast, fcorrect_incident_intensity_colocated.
  destruct (fcorrect_deadtime _ _ _ _ _ _) as [f1|e]; [| reflexivity].
  cbn [bind].
  destruct (arr_idiv f1 reference) as [f2|e]; [| reflexivity].
  cbn [bind].
  rewrite !bind_assoc.
  destruct (mask_get _ _) as [s|e]; [| reflexivity].
  cbn [bind]. rewrite !bind_assoc.
  destruct (arr_map2 _ _ _) as [v|e]; reflexivity.
Qed.

(** C8. The self-absorption correction that
    [fcompute_fluorescence_fit_fast] computes inline is the one
    [fcorrect_incident_intensity_colocated] returns for the same
    extinction lengths: for all arguments the function equals the
    pipeline in which the inline block is replaced by a call of the
    helper. *)
Theorem fit_fast_inline_correction_is_helper
  (brentq : (npfloat -> npfloat) -> npfloat -> npfloat -> pyresult npfloat)
  (raw slow fast radiography reference : farray)
  (integration_time abs_coeff : option npfloat) (baseline : option bool)
  (time_const : option npfloat) :
  fcompute_fluorescence_fit_fast brentq raw slow fast radiography reference
    integration_time abs_coeff baseline time_const
  = (final <- fcorrect_deadtime brentq raw slow fast
                (arg integration_time (Fin 1))
                (Some (arg time_const (Fin 3.13e-7))) ;;
     final <- arr_idiv final reference ;;
     correction <- fcorrect_incident_intensity_colocated
                     (ext_lengths_of radiography (arg abs_coeff (Fin 0))) ;;
     final <- arr_idiv final correction ;;
     subtract_baseline (arg baseline false) final)
  /\ (forall ext_lengths,
        fcorrect_incident_intensity_colocated ext_lengths
        = Ok (arr_map correction1 ext_lengths)).
Proof.
  split; [apply fit_fast_unfold | apply incident_intensity_data].
Qed.

Lemma residual_constants_differ (x obs : R) :
  x <> 0 ->
  fdead_time_zero_function (Fin x) (Fin obs) (Fin 3.13e-7)
  <> fdead_time_zero_function (Fin x) (Fin obs) (Fin 3.15e-7).
Proof.
  intros Hx E. rewrite !zero_function_fin in E. inversion E as [E'].
  unfold residual, Rminus in E'.
  apply Rplus_eq_reg_r in E'.
  apply Rmult_eq_reg_l in E'; [| exact Hx].
  apply exp_inv in E'. lra.
Qed.

(** With the probing stand-in, the result of
    [fcompute_fluorescence_fit_fast] on all-ones arrays with no fast
    events is the dead-time curve of the time constant in use, read at
    1e6. *)
Lemma fit_fast_probe (tc : R) :
  fcompute_fluorescence_fit_fast (brentq_probe (Fin 1e6)) (vec [Fin 1])
    (vec [Fin 1]) (vec [Fin 0]) (vec [Fin 1]) (vec [Fin 1]) None None None
    (Some (Fin tc))
  = Ok (vec [Fin (observed_rate 1e6 tc)]).
Proof.
  unfold observed_rate.
  assert (Hx : 0 < 1e6 * exp (- tc * 1e6)).
  { apply Rmult_lt_0_compat; [lra | apply exp_pos]. }
  rewrite fit_fast_unfold. cbn [arg].
  rewrite correct_deadtime_vec by reflexivity. cbn [arg map mapM].
  unfold solve_rate, brentq_probe. rewrite np_div_one.
  rewrite zero_function_fin. cbn [bind zip_with map].
  unfold residual. rewrite Rminus_0_r.
  rewrite (np_div_fin 1 (1e6 * exp (- tc * 1e6))) by lra.
  rewrite np_div_one. cbn [nan_to_num1].
  assert (Hinv : 1 / (1e6 * exp (- tc * 1e6)) <> 0).
  { unfold Rdiv. rewrite Rmult_1_l. apply Rinv_neq_0_compat. lra. }
  rewrite np_div_fin by exact Hinv.
  replace (1 / (1 / (1e6 * exp (- tc * 1e6))))
    with (1e6 * exp (- tc * 1e6)) by (field; lra).
  unfold vec. cbn [length].
  rewrite arr_idiv_same by reflexivity. cbn [bind shape data zip_with].
  rewrite np_div_one.
  rewrite incident_intensity_data. cbn [bind].
  unfold ext_lengths_of. rewrite truthy_zero.
  rewrite arr_idiv_same by reflexivity.
  cbn [subtract_baseline arr_map shape data map zip_with np_log].
  rewrite Rltb_true by lra. cbn [np_neg]. rewrite ln_1.
  rewrite correction1_small by lra. rewrite np_div_one. reflexivity.
Qed.

(** C9. The default [time_const] of [fcompute_fluorescence_fit_fast] is
    3.13e-7 and the default [fast_filter_time_constant] of
    [fcorrect_deadtime] is 3.15e-7; the two differ.  A call of
    [fcompute_fluorescence_fit_fast] without [time_const] is the call
    with [time_const = 3.13e-7]: it runs [fcorrect_deadtime] with
    3.13e-7, which hands [brentq] the residual of that time constant for
    every element, and this residual differs from the one of 3.15e-7 at
    every non-zero rate.  The difference reaches the result: with a
    stand-in for [brentq] that reports the residual at 1e6, the default
    call returns what 3.13e-7 gives and not what 3.15e-7 gives. *)
Theorem fit_fast_default_time_constant
  (brentq : (npfloat -> npfloat) -> npfloat -> npfloat -> pyresult npfloat)
  (raw slow fast radiography reference : farray)
  (integration_time abs_coeff : option npfloat) (baseline : option bool) :
  Fin 3.13e-7 <> Fin 3.15e-7
  /\ fcorrect_deadtime brentq raw slow fast (arg integration_time (Fin 1)) None
     = fcorrect_deadtime brentq raw slow fast (arg integration_time (Fin 1))
         (Some (Fin 3.15e-7))
  /\ fcompute_fluorescence_fit_fast brentq raw slow fast radiography
       reference integration_time abs_coeff baseline None
     = (final <- fcorrect_deadtime brentq raw slow fast
                   (arg integration_time (Fin 1)) (Some (Fin 3.13e-7)) ;;
        final <- arr_idiv final reference ;;
        correction <- fcorrect_incident_intensity_colocated
                        (ext_lengths_of radiography (arg abs_coeff (Fin 0))) ;;
        final <- arr_idiv final correction ;;
        subtract_baseline (arg baseline false) final)
  /\ fcompute_fluorescence_fit_fast brentq raw slow fast radiography
       reference integration_time abs_coeff baseline None
     = fcompute_fluorescence_fit_fast brentq raw slow fast radiography
         reference integration_time abs_coeff baseline (Some (Fin 3.13e-7))
  /\ (forall (rates : list npfloat) (it tc : npfloat),
        fitted_fast_countrate_of brentq (vec rates) it tc
        = (xs <- mapM
                   (fun c =>
                      brentq (fun x => fdead_time_zero_function x c tc)
                        (np_sub c (Fin 50000)) (np_add c (Fin 1e5)))
                   (map (fun x => np_div x it) rates) ;;
           Ok (vec xs)))
  /\ (forall x obs : R, x <> 0 ->
        fdead_time_zero_function (Fin x) (Fin obs) (Fin 3.13e-7)
        <> fdead_time_zero_function (Fin x) (Fin obs) (Fin 3.15e-7))
  /\ fcompute_fluorescence_fit_fast (brentq_probe (Fin 1e6)) (vec [Fin 1])
       (vec [Fin 1]) (vec [Fin 0]) (vec [Fin 1]) (vec [Fin 1]) None None
       None None
     = Ok (vec [Fin (observed_rate 1e6 3.13e-7)])
  /\ fcompute_fluorescence_fit_fast (brentq_probe (Fin 1e6)) (vec [Fin 1])
       (vec [Fin 1]) (vec [Fin 0]) (vec [Fin 1]) (vec [Fin 1]) None None
       None (Some (Fin 3.15e-7))
     = Ok (vec [Fin (observed_rate 1e6 3.15e-7)])
  /\ fcompute_fluorescence_fit_fast (brentq_probe (Fin 1e6)) (vec [Fin 1])
       (vec [Fin 1]) (vec [Fin 0]) (vec [Fin 1]) (vec [Fin 1]) None None
       None None
     <> fcompute_fluorescence_fit_fast (brentq_probe (Fin 1e6)) (vec [Fin 1])
          (vec [Fin 1]) (vec [Fin 0]) (vec [Fin 1]) (vec [Fin 1]) None None
          None (Some (Fin 3.15e-7)).
Proof.
  split; [intros E; inversion E; lra |].
  split; [reflexivity |].
  split; [apply fit_fast_unfold |].
  split; [reflexivity |].
  split; [intros rates it tc; apply fitted_fast_countrate_vec |].
  split; [apply residual_constants_differ |].
  assert (Hd : fcompute_fluorescence_fit_fast (brentq_probe (Fin 1e6))
                 (vec [Fin 1]) (vec [Fin 1]) (vec [Fin 0]) (vec [Fin 1])
                 (vec [Fin 1]) None None None None
               = Ok (vec [Fin (observed_rate 1e6 3.13e-7)]))
    by (apply (fit_fast_probe 3.13e-7)).
  split; [exact Hd |].
  split; [apply (fit_fast_probe 3.15e-7) |].
  rewrite Hd, (fit_fast_probe 3.15e-7).
  intros E. inversion E as [E']. unfold observed_rate in E'.
  apply Rmult_eq_reg_l in E'; [| lra].
  apply exp_inv in E'. lra.
Qed.

(* ------------------------------------------------------------------ *)
(** *** [fcompute_fluorescence] on arrays of one shape *)

Lemma ext_lengths_of_shape (radiography : farray) (abs_coeff : npfloat) :
  shape (ext_lengths_of radiography abs_coeff) = shape radiography.
Proof. unfold ext_lengths_of. destruct (truthy abs_coeff); reflexivity. Qed.

Lemma ext_lengths_of_length (radiography : farray) (abs_coeff : npfloat) :
  length (data (ext_lengths_of radiography abs_coeff))
  = length (data radiography).
Proof.
  unfold ext_lengths_of. destruct (truthy abs_coeff); cbn [arr_map data];
    rewrite ?length_map; reflexivity.
Qed.

Lemma fluorescence_data (sh : list nat)
  (raw slow fast radiography reference : list npfloat)
  (abs_coeff : option npfloat) (baseline : option bool) :
  fcompute_fluorescence (mk_ndarray sh raw) (mk_ndarray sh slow)
    (mk_ndarray sh fast) (mk_ndarray sh radiography)
    (mk_ndarray sh reference) abs_coeff baseline
  = subtract_baseline (arg baseline false)
      (mk_ndarray sh
         (fluorescence_elements raw slow fast reference
            (data (ext_lengths_of (mk_ndarray sh radiography)
                     (arg abs_coeff (Fin 0)))))).
Proof.
  unfold fcompute_fluorescence.
  rewrite arr_map2_same by reflexivity. cbn [bind shape data nan_to_num arr_map].
  rewrite arr_map2_same by reflexivity. cbn [bind shape data].
  rewrite arr_idiv_same by reflexivity. cbn [bind shape data].
  rewrite incident_intensity_data. cbn [bind].
  rewrite arr_idiv_same
    by (cbn [arr_map shape]; rewrite ext_lengths_of_shape; reflexivity).
  reflexivity.
Qed.

Lemma map_div_one (l : list npfloat) :
  map (fun x => np_div x (Fin 1)) l = l.
Proof.
  induction l as [|x l IH]; simpl; [reflexivity |].
  rewrite np_div_one, IH. reflexivity.
Qed.

Lemma zip_div_ones (l ones : list npfloat) :
  length l = length ones -> Forall (fun y => y = Fin 1) ones ->
  zip_with np_div l ones = l.
Proof.
  intros HL HF.
  rewrite (zip_with_map_r_const np_div (Fin 1)) by assumption.
  apply map_div_one.
Qed.

Lemma live_time_equal_events (events : list R) :
  Forall (fun e => 0 < e) events ->
  Forall (fun y => y = Fin 1)
    (map nan_to_num1 (zip_with np_div (map Fin events) (map Fin events))).
Proof.
  intros H. rewrite zip_with_diag, !map_map.
  induction H as [|e l He _ IH]; simpl; constructor; [| exact IH].
  rewrite Reqb_false by lra. simpl. f_equal. field. lra.
Qed.

Lemma correction_of_unit_transmission (n : nat) :
  Forall (fun y => y = Fin 1)
    (map correction1
       (data (ext_lengths_of (mk_ndarray [n] (repeat (Fin 1) n)) (Fin 0)))).
Proof.
  unfold ext_lengths_of. rewrite truthy_zero. cbn [arr_map data].
  rewrite !map_map.
  induction n as [|n IH]; simpl; constructor; [| exact IH].
  rewrite Rltb_true by lra. simpl. rewrite ln_1.
  apply correction1_small. lra.
Qed.

(** C7. With [fast_events] and [slow_events] the same positive values,
    [abs_coeff = 0], [radiography] all ones and [baseline] left at its
    default, [fcompute_fluorescence] returns exactly
    [raw_fluorescence / reference], element by element, for arrays of any
    common shape: the live time is 1 everywhere, the extinction length is
    0 and the intensity correction is 1. *)
Theorem fluorescence_identity_case (sh : list nat)
  (raw reference : list npfloat) (events : list R) :
  length raw = length events ->
  length reference = length events ->
  Forall (fun e => 0 < e) events ->
  fcompute_fluorescence (mk_ndarray sh raw) (mk_ndarray sh (map Fin events))
    (mk_ndarray sh (map Fin events))
    (mk_ndarray sh (repeat (Fin 1) (length events)))
    (mk_ndarray sh reference) (Some (Fin 0)) None
  = Ok (mk_ndarray sh (zip_with np_div raw reference)).
Proof.
  intros Hraw Href Hpos.
  rewrite fluorescence_data. cbn [arg subtract_baseline].
  unfold fluorescence_elements. do 2 f_equal.
  pose proof (live_time_equal_events events Hpos) as Hlive.
  rewrite (zip_div_ones raw); [| | exact Hlive].
  2:{ rewrite length_map, zip_with_length by reflexivity.
      rewrite length_map. exact Hraw. }
  apply zip_div_ones.
  - rewrite zip_with_length by congruence.
    rewrite length_map, ext_lengths_of_length. cbn [data].
    rewrite repeat_length. exact Hraw.
  - pose proof (correction_of_unit_transmission (length events)) as Hc.
    unfold ext_lengths_of in *. rewrite truthy_zero in *.
    cbn [arr_map data] in *. exact Hc.
Qed.

Lemma fluorescence_identity_case_witness :
  length [Fin 6; Fin 8] = length [5; 7]
  /\ length [Fin 2; Fin 4] = length [5; 7]
  /\ Forall (fun e => 0 < e) [5; 7]
  /\ fcompute_fluorescence (vec [Fin 6; Fin 8]) (vec [Fin 5; Fin 7])
       (vec [Fin 5; Fin 7]) (vec [Fin 1; Fin 1]) (vec [Fin 2; Fin 4])
       (Some (Fin 0)) None
     = Ok (vec [np_div (Fin 6) (Fin 2); np_div (Fin 8) (Fin 4)]).
Proof.
  assert (Hpos : Forall (fun e => 0 < e) [5; 7])
    by (repeat constructor; lra).
  split; [reflexivity |]. split; [reflexivity |]. split; [exact Hpos |].
  apply (fluorescence_identity_case [2%nat] [Fin 6; Fin 8] [Fin 2; Fin 4]
           [5; 7] eq_refl eq_refl Hpos).
Defined.

(* ------------------------------------------------------------------ *)
(** *** Elements with no fast and no slow events *)

Lemma correction1_range (x : npfloat) :
  exists v, correction1 x = Fin v /\ 0 <= v <= 1.
Proof.
  destruct x as [a| | |].
  - destruct (Rle_or_lt a 1e-5) as [Hs|Hl].
    + exists 1. split; [apply correction1_small; assumption | lra].
    + exists ((1 - exp (- a)) / a).
      split; [apply correction1_large; assumption |].
      pose proof (closed_form_bounds a). lra.
  - exists 0. split; [| lra]. reflexivity.
  - exists 1. split; [| lra]. reflexivity.
  - exists 1. split; [| lra]. reflexivity.
Qed.

Lemma inf_div_correction (y x : npfloat) :
  is_inf y -> is_inf (np_div y (correction1 x)).
Proof.
  intros Hy. destruct (correction1_range x) as [v [-> Hv]].
  destruct y; simpl in *; try contradiction;
    rewrite Rltb_false by lra; exact I.
Qed.

Lemma inf_div_finite (y r : npfloat) :
  is_inf y -> is_finite r -> is_inf (np_div y r).
Proof.
  intros Hy Hr. destruct r as [b| | |]; simpl in Hr; try contradiction.
  destruct y; simpl in *; try contradiction;
    destruct (Rltb b 0); exact I.
Qed.

Lemma fluorescence_elements_length
  (raw slow fast reference ext : list npfloat) :
  length slow = length raw -> length fast = length raw ->
  length reference = length raw -> length ext = length raw ->
  length (fluorescence_elements raw slow fast reference ext) = length raw.
Proof.
  intros Hs Hf Hr He. unfold fluorescence_elements.
  assert (L1 : length (map nan_to_num1 (zip_with np_div slow fast))
               = length raw)
    by (rewrite length_map, zip_with_length by lia; lia).
  assert (L2 : length (zip_with np_div raw
                         (map nan_to_num1 (zip_with np_div slow fast)))
               = length raw)
    by (rewrite zip_with_length by lia; lia).
  assert (L3 : length (zip_with np_div
                         (zip_with np_div raw
                            (map nan_to_num1 (zip_with np_div slow fast)))
                         reference) = length raw)
    by (rewrite zip_with_length by lia; lia).
  rewrite zip_with_length by (rewrite length_map; lia). exact L3.
Qed.

Lemma inf_sub_not_finite (a m : npfloat) :
  is_inf a -> ~ is_finite (np_sub a m).
Proof. destruct a, m; simpl; tauto. Qed.

Lemma inf_sub_finite (a : npfloat) (m : R) :
  is_inf a -> is_inf (np_sub a (Fin m)).
Proof. destruct a; simpl; tauto. Qed.

Lemma nan_div (y : npfloat) : np_div NaN y = NaN.
Proof. destruct y; reflexivity. Qed.

(** C10 (as amended).  In [fcompute_fluorescence], at an element where
    [slow_events] and [fast_events] are both 0, the ratio
    [slow_events/fast_events] is NaN and [nan_to_num] makes the live time
    0, so the assembled element is [raw_fluorescence / 0] carried through
    the two later divisions.  With [baseline] false (the default) the
    returned element is infinite when [raw_fluorescence] is positive and
    [reference] is finite there, and NaN when [raw_fluorescence] is 0.
    With [baseline=True] it is NaN when [raw_fluorescence] is 0; for a
    positive [raw_fluorescence] and a finite [reference] it is never
    finite, and it is infinite when the minimum of the assembled array is
    finite.  In no case is it the uncorrected raw value.  Stated for
    arrays of one shape. *)
Theorem fluorescence_zero_events (sh : list nat)
  (raw slow fast radiography reference : list npfloat)
  (abs_coeff : option npfloat) (i : nat) :
  length slow = length raw ->
  length fast = length raw ->
  length radiography = length raw ->
  length reference = length raw ->
  (i < length raw)%nat ->
  nth i slow NaN = Fin 0 ->
  nth i fast NaN = Fin 0 ->
  exists q r,
    arr_map2 np_div (mk_ndarray sh slow) (mk_ndarray sh fast) = Ok q
    /\ nth i (data q) (Fin 0) = NaN
    /\ nth i (data (nan_to_num q)) NaN = Fin 0
    /\ fcompute_fluorescence (mk_ndarray sh raw) (mk_ndarray sh slow)
         (mk_ndarray sh fast) (mk_ndarray sh radiography)
         (mk_ndarray sh reference) abs_coeff None = Ok r
    /\ nth i (data r) (Fin 0)
       = np_div
           (np_div (np_div (nth i raw NaN) (Fin 0)) (nth i reference NaN))
           (correction1
              (nth i (data (ext_lengths_of (mk_ndarray sh radiography)
                              (arg abs_coeff (Fin 0)))) NaN))
    /\ (forall x, nth i raw NaN = Fin x -> 0 < x ->
        is_finite (nth i reference NaN) -> is_inf (nth i (data r) (Fin 0)))
    /\ (nth i raw NaN = Fin 0 -> nth i (data r) (Fin 0) = NaN)
    /\ exists r',
         fcompute_fluorescence (mk_ndarray sh raw) (mk_ndarray sh slow)
           (mk_ndarray sh fast) (mk_ndarray sh radiography)
           (mk_ndarray sh reference) abs_coeff (Some true) = Ok r'
         /\ (nth i raw NaN = Fin 0 -> nth i (data r') (Fin 0) = NaN)
         /\ (forall x, nth i raw NaN = Fin x -> 0 < x ->
             is_finite (nth i reference NaN) ->
             ~ is_finite (nth i (data r') (Fin 0))
             /\ (forall m, np_min r = Ok (Fin m) ->
                 is_inf (nth i (data r') (Fin 0)))).
Proof.
  intros Hslow Hfast Hrad Href Hi Hs0 Hf0.
  assert (Hq : nth i (zip_with np_div slow fast) (Fin 0) = NaN).
  { rewrite (zip_with_nth np_div slow fast i NaN NaN) by lia.
    rewrite Hs0, Hf0. simpl. rewrite Reqb_true by reflexivity.
    unfold inf_signed. rewrite !Rltb_false by lra. reflexivity. }
  assert (Hlive : nth i (map nan_to_num1 (zip_with np_div slow fast)) NaN
                  = Fin 0).
  { rewrite (nth_indep _ NaN (nan_to_num1 (Fin 0))).
    - rewrite map_nth, Hq. reflexivity.
    - rewrite length_map, zip_with_length by lia. lia. }
  set (ext := data (ext_lengths_of (mk_ndarray sh radiography)
                      (arg abs_coeff (Fin 0)))).
  assert (Hext : length ext = length raw).
  { unfold ext. rewrite ext_lengths_of_length. exact Hrad. }
  assert (Hr : nth i (fluorescence_elements raw slow fast reference ext)
                 (Fin 0)
               = np_div
                   (np_div (np_div (nth i raw NaN) (Fin 0))
                      (nth i reference NaN))
                   (correction1 (nth i ext NaN))).
  { unfold fluorescence_elements.
    assert (L1 : length (map nan_to_num1 (zip_with np_div slow fast))
                 = length raw)
      by (rewrite length_map, zip_with_length by lia; lia).
    assert (L2 : length (zip_with np_div raw
                           (map nan_to_num1 (zip_with np_div slow fast)))
                 = length raw)
      by (rewrite zip_with_length by lia; lia).
    assert (L3 : length (zip_with np_div
                           (zip_with np_div raw
                              (map nan_to_num1 (zip_with np_div slow fast)))
                           reference) = length raw)
      by (rewrite zip_with_length by lia; lia).
    rewrite (zip_with_nth np_div _ _ i NaN (correction1 NaN))
      by (rewrite ?length_map; lia).
    rewrite map_nth.
    rewrite (zip_with_nth np_div _ _ i NaN NaN) by lia.
    rewrite (zip_with_nth np_div _ _ i NaN NaN) by lia.
    rewrite Hlive. reflexivity. }
  eexists. eexists.
  split; [apply arr_map2_same; reflexivity |].
  cbn [data shape nan_to_num arr_map].
  split; [exact Hq |]. split; [exact Hlive |].
  split; [rewrite fluorescence_data; reflexivity |].
  cbn [data]. fold ext.
  assert (Hinf : forall x, nth i raw NaN = Fin x -> 0 < x ->
                 is_finite (nth i reference NaN) ->
                 is_inf (nth i (fluorescence_elements raw slow fast
                                  reference ext) (Fin 0))).
  { intros x Hx Hpos Hfin. rewrite Hr, Hx.
    apply inf_div_correction. apply inf_div_finite; [| exact Hfin].
    simpl. rewrite Reqb_true by reflexivity.
    unfold inf_signed. rewrite Rltb_true by lra. exact I. }
  assert (Hnan : nth i raw NaN = Fin 0 ->
                 nth i (fluorescence_elements raw slow fast reference ext)
                   (Fin 0) = NaN).
  { intros Hx. rewrite Hr, Hx. simpl.
    rewrite Reqb_true by reflexivity.
    unfold inf_signed. rewrite !Rltb_false by lra.
    rewrite !nan_div. reflexivity. }
  split; [exact Hr |]. split; [exact Hinf |]. split; [exact Hnan |].
  pose proof (fluorescence_elements_length raw slow fast reference ext
                Hslow Hfast Href Hext) as Hlen.
  rewrite fluorescence_data. fold ext.
  cbn [arg subtract_baseline]. unfold np_min at 1. cbn [data].
  destruct (fluorescence_elements raw slow fast reference ext)
    as [|y l] eqn:E; [simpl in Hlen; lia |].
  cbn [bind].
  set (m0 := fold_left np_min2 l y).
  eexists. split; [reflexivity |].
  cbn [arr_map data].
  assert (Hr' : nth i (map (fun x => np_sub x m0) (y :: l)) (Fin 0)
                = np_sub (nth i (y :: l) (Fin 0)) m0).
  { rewrite (nth_indep _ (Fin 0) (np_sub (Fin 0) m0))
      by (rewrite length_map; lia).
    apply (map_nth (fun x => np_sub x m0)). }
  rewrite Hr'. split.
  - intros Hx. rewrite (Hnan Hx). reflexivity.
  - intros x Hx Hpos Hfin. split.
    + apply inf_sub_not_finite. apply (Hinf x Hx Hpos Hfin).
    + intros m Hm. unfold np_min in Hm. cbn [data] in Hm.
      inversion Hm as [Hm0]. fold m0 in Hm0.
      rewrite Hm0. apply inf_sub_finite.
      apply (Hinf x Hx Hpos Hfin).
Qed.

Lemma fluorescence_zero_events_witness :
  exists q r,
    arr_map2 np_div (vec [Fin 0]) (vec [Fin 0]) = Ok q
    /\ nth 0 (data q) (Fin 0) = NaN
    /\ nth 0 (data (nan_to_num q)) NaN = Fin 0
    /\ fcompute_fluorescence (vec [Fin 3]) (vec [Fin 0]) (vec [Fin 0])
         (vec [Fin 1]) (vec [Fin 2]) None None = Ok r
    /\ is_inf (nth 0 (data r) (Fin 0)).
Proof.
  destruct (fluorescence_zero_events [1%nat] [Fin 3] [Fin 0] [Fin 0] [Fin 1]
              [Fin 2] None 0 eq_refl eq_refl eq_refl eq_refl
              (Nat.lt_0_succ 0) eq_refl eq_refl)
    as [q [r [H1 [H2 [H3 [H4 [_ [H6 _]]]]]]]].
  exists q, r. repeat (split; [assumption |]).
  apply (H6 3); [reflexivity | lra | exact I].
Defined.

(** C10, counterexample.  With [raw_fluorescence = 3], no slow and no
    fast events and [reference = +inf], the element is
    [3 / 0 / inf = inf / inf], which is NaN and not infinite although
    [raw_fluorescence] is positive.  With [baseline=True] and a second
    element whose [raw_fluorescence] is 0, the assembled array is
    [inf, NaN], its minimum is NaN and both returned elements are NaN. *)
Lemma zero_events_not_always_infinite :
  fcompute_fluorescence (vec [Fin 3]) (vec [Fin 0]) (vec [Fin 0])
    (vec [Fin 1]) (vec [PInf]) None None = Ok (vec [NaN])
  /\ fcompute_fluorescence (vec [Fin 3; Fin 0]) (vec [Fin 0; Fin 0])
       (vec [Fin 0; Fin 0]) (vec [Fin 1; Fin 1]) (vec [Fin 1; Fin 1]) None
       (Some true) = Ok (vec [NaN; NaN])
  /\ ~ is_inf NaN.
Proof.
  split; [| split; [| intros H; exact H]].
  - unfold vec. cbn [length]. rewrite fluorescence_data.
    repeat np_eval. reflexivity.
  - unfold vec. cbn [length]. rewrite fluorescence_data.
    repeat np_eval. reflexivity.
Qed.

(* ------------------------------------------------------------------ *)
(** *** Baseline subtraction *)

Lemma np_min2_cases (x y : npfloat) :
  np_min2 x y = x \/ np_min2 x y = y.
Proof.
  destruct x, y; simpl; try (left; reflexivity); try (right; reflexivity).
  destruct (Rltb r0 r); [right | left]; reflexivity.
Qed.

(** The minimum is one of the elements. *)
Lemma fold_min_in (l : list npfloat) (x : npfloat) :
  In (fold_left np_min2 l x) (x :: l).
Proof.
  revert x. induction l as [|y l IH]; intros x; [left; reflexivity |].
  cbn [fold_left]. remember (np_min2 x y) as z eqn:Hz.
  destruct (IH z) as [H|H].
  - destruct (np_min2_cases x y) as [E|E]; rewrite <- Hz in E.
    + left. rewrite <- H. symmetry. exact E.
    + right. left. rewrite <- H. symmetry. exact E.
  - right. right. exact H.
Qed.

Lemma fold_min_nan_acc (l : list npfloat) : fold_left np_min2 l NaN = NaN.
Proof. induction l as [|y l IH]; [reflexivity | exact IH]. Qed.

Lemma np_min2_nan_r (x : npfloat) : np_min2 x NaN = NaN.
Proof. destruct x; reflexivity. Qed.

(** A NaN among the elements is the minimum. *)
Lemma fold_min_nan (l : list npfloat) (x : npfloat) :
  In NaN (x :: l) -> fold_left np_min2 l x = NaN.
Proof.
  revert x. induction l as [|y l IH]; intros x H.
  - destruct H as [->|[]]. reflexivity.
  - cbn [fold_left]. destruct H as [->|[->|H]].
    + apply fold_min_nan_acc.
    + rewrite np_min2_nan_r. apply fold_min_nan_acc.
    + apply IH. right. exact H.
Qed.

Lemma sub_self_not_finite (x : npfloat) :
  ~ is_finite x -> np_sub x x = NaN.
Proof. destruct x; simpl; try reflexivity. intros H. exfalso. apply H. exact I. Qed.

Lemma np_min2_at_least (m : R) (x y : npfloat) :
  at_least m (np_min2 x y) <-> at_least m x /\ at_least m y.
Proof.
  unfold at_least. split.
  - intros [H|[v [H Hv]]].
    + destruct x as [a| | |], y as [b| | |]; simpl in H; try discriminate;
        try (destruct (Rltb b a); discriminate).
      split; left; reflexivity.
    + destruct x as [a| | |], y as [b| | |]; simpl in H; try discriminate.
      * unfold Rltb in H. destruct (Rlt_dec b a); inversion H; subst;
          split; right; eexists; split; try reflexivity; lra.
      * inversion H; subst. split; [right; eauto | left; reflexivity].
      * inversion H; subst. split; [left; reflexivity | right; eauto].
  - intros [[->|[a [-> Ha]]] [->|[b [-> Hb]]]]; simpl.
    + left. reflexivity.
    + right. eauto.
    + right. eauto.
    + destruct (Rltb b a); right; eauto.
Qed.

(** Every element is the finite minimum or more. *)
Lemma fold_min_lower (l : list npfloat) (x : npfloat) (m : R) :
  fold_left np_min2 l x = Fin m -> Forall (at_least m) (x :: l).
Proof.
  revert x. induction l as [|y l IH]; intros x H.
  - cbn [fold_left] in H. subst x. constructor; [| constructor].
    right. exists m. split; [reflexivity | lra].
  - cbn [fold_left] in H. specialize (IH _ H).
    inversion IH as [|? ? Hxy Hl]; subst.
    apply np_min2_at_least in Hxy. destruct Hxy as [Hx Hy].
    constructor; [exact Hx |]. constructor; [exact Hy | exact Hl].
Qed.

Lemma np_min2_attained (m : R) (x y : npfloat) :
  at_least m x -> at_least m y -> x = Fin m \/ y = Fin m ->
  np_min2 x y = Fin m.
Proof.
  intros [->|[a [-> Ha]]] [->|[b [-> Hb]]] [E|E]; try discriminate;
    inversion E; subst; simpl; try reflexivity; unfold Rltb;
    match goal with
    | |- context [Rlt_dec ?u ?v] => destruct (Rlt_dec u v)
    end; try reflexivity; f_equal; lra.
Qed.

(** A lower bound that is attained is the minimum. *)
Lemma fold_min_attained (l : list npfloat) (x : npfloat) (m : R) :
  Forall (at_least m) (x :: l) -> In (Fin m) (x :: l) ->
  fold_left np_min2 l x = Fin m.
Proof.
  revert x. induction l as [|y l IH]; intros x Hall Hin.
  - destruct Hin as [->|[]]. reflexivity.
  - cbn [fold_left].
    inversion Hall as [|? ? Hx Hyl]; subst.
    inversion Hyl as [|? ? Hy Hl]; subst.
    apply IH.
    + constructor; [| exact Hl]. apply np_min2_at_least. split; assumption.
    + destruct Hin as [E|[E|Hin]].
      * left. apply np_min2_attained; auto.
      * left. apply np_min2_attained; auto.
      * right. exact Hin.
Qed.

Lemma shift_at_least (m : R) (w : npfloat) :
  at_least m w -> at_least 0 (np_sub w (Fin m)).
Proof.
  intros [->|[v [-> Hv]]]; [left; reflexivity |].
  right. exists (v + - m). split; [reflexivity | lra].
Qed.

(** Subtracting a finite minimum leaves the minimum 0. *)
Lemma baseline_finite_minimum (a : farray) (m : R) :
  np_min a = Ok (Fin m) ->
  np_min (arr_map (fun x => np_sub x (Fin m)) a) = Ok (Fin 0).
Proof.
  unfold np_min. cbn [arr_map data].
  destruct (data a) as [|x l]; [discriminate |].
  intros H.
  assert (Hm : fold_left np_min2 l x = Fin m) by congruence. clear H.
  cbn [map]. f_equal.
  pose proof (fold_min_lower l x m Hm) as Hall.
  pose proof (fold_min_in l x) as Hin. rewrite Hm in Hin.
  change (np_sub x (Fin m) :: map (fun y => np_sub y (Fin m)) l)
    with (map (fun y => np_sub y (Fin m)) (x :: l)) in *.
  apply (fold_min_attained
           (map (fun y => np_sub y (Fin m)) l) (np_sub x (Fin m)) 0).
  - change (np_sub x (Fin m) :: map (fun y => np_sub y (Fin m)) l)
      with (map (fun y => np_sub y (Fin m)) (x :: l)).
    rewrite Forall_forall in *. intros w Hw.
    apply in_map_iff in Hw. destruct Hw as [u [<- Hu]].
    apply shift_at_least. apply Hall. exact Hu.
  - change (np_sub x (Fin m) :: map (fun y => np_sub y (Fin m)) l)
      with (map (fun y => np_sub y (Fin m)) (x :: l)).
    apply in_map_iff. exists (Fin m). split; [| exact Hin].
    cbn [np_sub np_neg np_add]. f_equal. lra.
Qed.

(** Subtracting a minimum that is NaN or infinite leaves a NaN. *)
Lemma baseline_other_minimum (a : farray) (x : npfloat) :
  np_min a = Ok x -> ~ is_finite x ->
  np_min (arr_map (fun y => np_sub y x) a) = Ok NaN.
Proof.
  unfold np_min. cbn [arr_map data].
  destruct (data a) as [|y l]; [discriminate |].
  intros H Hx.
  assert (Hm : fold_left np_min2 l y = x) by congruence. clear H.
  cbn [map]. f_equal.
  pose proof (fold_min_in l y) as Hin. rewrite Hm in Hin.
  apply fold_min_nan.
  change (np_sub y x :: map (fun w => np_sub w x) l)
    with (map (fun w => np_sub w x) (y :: l)).
  apply in_map_iff. exists x. split; [| exact Hin].
  apply sub_self_not_finite. exact Hx.
Qed.

Lemma baseline_step_outcome (a : farray) :
  baseline_outcome a (subtract_baseline true a).
Proof.
  unfold baseline_outcome, subtract_baseline. split; [| split].
  - intros m H. rewrite H. cbn [bind]. eexists.
    split; [reflexivity |]. split; [reflexivity |].
    apply baseline_finite_minimum. exact H.
  - intros x H Hx. rewrite H. cbn [bind]. eexists.
    split; [reflexivity |]. split; [reflexivity |].
    apply baseline_other_minimum; assumption.
  - intros e H. rewrite H. reflexivity.
Qed.

(** Both pipelines end in [subtract_baseline]: the result with
    [baseline=True] is the baseline step applied to the result with
    [baseline=False]. *)
Lemma fluorescence_baseline_split
  (raw slow fast radiography reference : farray) (abs_coeff : option npfloat)
  (a : farray) :
  fcompute_fluorescence raw slow fast radiography reference abs_coeff
    (Some false) = Ok a ->
  fcompute_fluorescence raw slow fast radiography reference abs_coeff
    (Some true) = subtract_baseline true a.
Proof.
  unfold fcompute_fluorescence. cbn [arg]. intros H.
  repeat match type of H with
         | bind ?m _ = Ok _ =>
             destruct m; [cbn [bind] in H |- * | discriminate H]
         end.
  cbn [subtract_baseline] in H. inversion H. reflexivity.
Qed.

Lemma fit_fast_baseline_split
  (brentq : (npfloat -> npfloat) -> npfloat -> npfloat -> pyresult npfloat)
  (raw slow fast radiography reference : farray)
  (integration_time abs_coeff time_const : option npfloat) (a : farray) :
  fcompute_fluorescence_fit_fast brentq raw slow fast radiography reference
    integration_time abs_coeff (Some false) time_const = Ok a ->
  fcompute_fluorescence_fit_fast brentq raw slow fast radiography reference
    integration_time abs_coeff (Some true) time_const
  = subtract_baseline true a.
Proof.
  rewrite !fit_fast_unfold. cbn [arg]. intros H.
  repeat match type of H with
         | bind ?m _ = Ok _ =>
             destruct m; [cbn [bind] in H |- * | discriminate H]
         end.
  cbn [subtract_baseline] in H. inversion H. reflexivity.
Qed.

(** C6 (as amended).  Whenever the call with [baseline] false returns
    the assembled array [a]: if the global minimum of [a] is a finite
    number (so [a] is not empty and holds no NaN),
    [fcompute_fluorescence] and [fcompute_fluorescence_fit_fast] with
    [baseline=True] return [a] with that minimum subtracted from every
    element, and the minimum of the returned array is exactly 0; if the
    minimum of [a] is NaN or infinite the call still returns, and the
    minimum of the returned array is NaN; if [a] is empty the call
    raises. *)
Theorem baseline_minimum_is_zero
  (brentq : (npfloat -> npfloat) -> npfloat -> npfloat -> pyresult npfloat)
  (raw slow fast radiography reference : farray)
  (integration_time abs_coeff time_const : option npfloat) (a : farray) :
  (fcompute_fluorescence raw slow fast radiography reference abs_coeff
     (Some false) = Ok a ->
   baseline_outcome a
     (fcompute_fluorescence raw slow fast radiography reference abs_coeff
        (Some true)))
  /\ (fcompute_fluorescence_fit_fast brentq raw slow fast radiography
        reference integration_time abs_coeff (Some false) time_const = Ok a ->
      baseline_outcome a
        (fcompute_fluorescence_fit_fast brentq raw slow fast radiography
           reference integration_time abs_coeff (Some true) time_const)).
Proof.
  split; intros H.
  - rewrite (fluorescence_baseline_split _ _ _ _ _ _ _ H).
    apply baseline_step_outcome.
  - rewrite (fit_fast_baseline_split _ _ _ _ _ _ _ _ _ _ H).
    apply baseline_step_outcome.
Qed.

(** C6, counterexample.  Three calls with [baseline=True] that return
    normally with a minimum that is NaN, not 0.  A 0 in [reference] makes
    the assembled element plus infinity for [raw_fluorescence = 1], minus
    infinity for [raw_fluorescence = -1] and NaN for [raw_fluorescence =
    0]; the minimum of the assembled array is that element, and
    subtracting it leaves NaN. *)
Lemma baseline_minimum_nan :
  (fcompute_fluorescence (vec [Fin 1]) (vec [Fin 1]) (vec [Fin 1])
     (vec [Fin 1]) (vec [Fin 0]) None (Some false) = Ok (vec [PInf])
   /\ fcompute_fluorescence (vec [Fin 1]) (vec [Fin 1]) (vec [Fin 1])
        (vec [Fin 1]) (vec [Fin 0]) None (Some true) = Ok (vec [NaN]))
  /\ (fcompute_fluorescence (vec [Fin (-1)]) (vec [Fin 1]) (vec [Fin 1])
        (vec [Fin 1]) (vec [Fin 0]) None (Some false) = Ok (vec [NInf])
      /\ fcompute_fluorescence (vec [Fin (-1)]) (vec [Fin 1]) (vec [Fin 1])
           (vec [Fin 1]) (vec [Fin 0]) None (Some true) = Ok (vec [NaN]))
  /\ (fcompute_fluorescence (vec [Fin 0]) (vec [Fin 1]) (vec [Fin 1])
        (vec [Fin 1]) (vec [Fin 0]) None (Some false) = Ok (vec [NaN])
      /\ fcompute_fluorescence (vec [Fin 0]) (vec [Fin 1]) (vec [Fin 1])
           (vec [Fin 1]) (vec [Fin 0]) None (Some true) = Ok (vec [NaN]))
  /\ np_min (vec [NaN]) = Ok NaN
  /\ NaN <> Fin 0.
Proof.
  repeat split; try reflexivity; try discriminate;
    unfold vec; cbn [length]; rewrite fluorescence_data;
    repeat np_eval; reflexivity.
Qed.

Lemma baseline_minimum_is_zero_witness :
  np_min (vec [Fin 3]) = Ok (Fin 3)
  /\ (exists r,
        fcompute_fluorescence (vec [Fin 6]) (vec [Fin 5]) (vec [Fin 5])
          (vec [Fin 1]) (vec [Fin 2]) None (Some true) = Ok r
        /\ r = arr_map (fun x => np_sub x (Fin 3)) (vec [Fin 3])
        /\ np_min r = Ok (Fin 0))
  /\ (exists r,
        fcompute_fluorescence_fit_fast (brentq_const (Fin 5))
          (vec [Fin 6]) (vec [Fin 5]) (vec [Fin 5]) (vec [Fin 1])
          (vec [Fin 2]) None None (Some true) None = Ok r
        /\ r = arr_map (fun x => np_sub x (Fin 3)) (vec [Fin 3])
        /\ np_min r = Ok (Fin 0)).
Proof.
  assert (Hf : Forall is_finite (data (vec [Fin 3])))
    by (repeat constructor).
  assert (Hn : data (vec [Fin 3]) <> []) by discriminate.
  assert (E1 : fcompute_fluorescence (vec [Fin 6]) (vec [Fin 5])
                 (vec [Fin 5]) (vec [Fin 1]) (vec [Fin 2]) None (Some false)
               = Ok (vec [Fin 3])).
  { unfold vec. cbn [length]. rewrite fluorescence_data.
    repeat np_eval. unfold vec. cbn [length]. repeat f_equal. lra. }
  assert (E2 : fcompute_fluorescence_fit_fast (brentq_const (Fin 5))
                 (vec [Fin 6]) (vec [Fin 5]) (vec [Fin 5]) (vec [Fin 1])
                 (vec [Fin 2]) None None (Some false) None
               = Ok (vec [Fin 3])).
  { rewrite fit_fast_unfold. cbn [arg].
    rewrite correct_deadtime_vec by reflexivity.
    unfold solve_rate, brentq_const. cbn [mapM map bind zip_with].
    unfold vec. cbn [length].
    rewrite arr_idiv_same by reflexivity. cbn [bind shape data].
    rewrite incident_intensity_data. cbn [bind].
    rewrite arr_idiv_same
      by (cbn [arr_map shape]; rewrite ext_lengths_of_shape; reflexivity).
    repeat np_eval. repeat f_equal. lra. }
  destruct (baseline_minimum_is_zero (brentq_const (Fin 5)) (vec [Fin 6])
              (vec [Fin 5]) (vec [Fin 5]) (vec [Fin 1]) (vec [Fin 2])
              None None None (vec [Fin 3])) as [T1 T2].
  destruct (T1 E1) as [F1 _]. destruct (T2 E2) as [F2 _].
  split; [reflexivity |].
  split; [exact (F1 3 eq_refl) | exact (F2 3 eq_refl)].
Defined.

(* ================================================================== *)
(** ** Further properties of the transmission functions *)

(** With a caller-supplied clear ratio nothing is sorted: arrays of one
    shape, of any number of axes, give the dark-corrected ratio divided
    by [clear_ratio], element by element. *)
Lemma transmission_explicit_ratio (sh : list nat)
  (PIN reference : list npfloat) (clear_ratio : npfloat)
  (PIN_dark ref_dark : option npfloat) :
  truthy clear_ratio = true ->
  fcompute_transmission (mk_ndarray sh PIN) (mk_ndarray sh reference)
    (Some clear_ratio) PIN_dark ref_dark
  = Ok (mk_ndarray sh
          (map (fun x => np_div x clear_ratio)
             (dark_ratio PIN reference (arg PIN_dark (Fin 0))
                (arg ref_dark (Fin 0))))).
Proof.
  intros H. unfold fcompute_transmission. cbn [arg].
  rewrite arr_map2_same by reflexivity. cbn [bind]. rewrite H. reflexivity.
Qed.

(** X1. Equal positive [PIN] and [reference], no dark currents and
    [clear_ratio = 1]: the transmission is exactly 1 everywhere, for
    arrays of any shape. *)
Theorem transmission_unity (sh : list nat) (l : list R) :
  Forall (fun x => 0 < x) l ->
  fcompute_transmission (mk_ndarray sh (map Fin l)) (mk_ndarray sh (map Fin l))
    (Some (Fin 1)) None None
  = Ok (mk_ndarray sh (map (fun _ => Fin 1) l)).
Proof.
  intros Hpos.
  rewrite transmission_explicit_ratio
    by (apply truthy_nonzero; intros E; inversion E; lra).
  do 2 f_equal. unfold dark_ratio. cbn [arg].
  rewrite zip_with_diag, !map_map.
  induction Hpos as [|x l Hx _ IH]; [reflexivity |].
  cbn [map]. rewrite IH. f_equal.
  cbn [np_sub np_add np_neg]. rewrite np_div_fin by lra.
  rewrite np_div_one. f_equal. field. lra.
Qed.

Lemma transmission_unity_witness :
  Forall (fun x => 0 < x) [2; 5]
  /\ fcompute_transmission (mk_ndarray [2%nat] (map Fin [2; 5]))
       (mk_ndarray [2%nat] (map Fin [2; 5])) (Some (Fin 1)) None None
     = Ok (mk_ndarray [2%nat] (map (fun _ => Fin 1) [2; 5])).
Proof.
  assert (H : Forall (fun x => 0 < x) [2; 5]) by (repeat constructor; lra).
  split; [exact H |].
  apply (transmission_unity [2%nat] [2; 5] H).
Defined.

(** X2. Auto-normalisation of arrays whose first axis is empty raises
    [IndexError]: [sorted] returns an empty list and the index [-1] is
    out of range. *)
Theorem transmission_empty_raises (rest : list nat)
  (PIN reference : list npfloat)
  (clear_ratio PIN_dark ref_dark : option npfloat) :
  arg clear_ratio (Fin 0) = Fin 0 ->
  fcompute_transmission (mk_ndarray (0%nat :: rest) PIN)
    (mk_ndarray (0%nat :: rest) reference) clear_ratio PIN_dark ref_dark
  = Raise IndexError.
Proof.
  intros H. unfold fcompute_transmission. rewrite H, truthy_zero.
  rewrite arr_map2_same by reflexivity. reflexivity.
Qed.

Lemma transmission_empty_raises_witness :
  arg None (Fin 0) = Fin 0
  /\ fcompute_transmission (mk_ndarray [0%nat] []) (mk_ndarray [0%nat] [])
       None None None = Raise IndexError.
Proof.
  split; [reflexivity |].
  apply (transmission_empty_raises [] [] [] None None None eq_refl).
Defined.

(** Sorting sub-arrays of two or more elements compares two of them, and
    the truth value of that comparison is undefined. *)
Lemma array_truth_long (l : list bool) :
  (2 <= length l)%nat -> array_truth l = Raise ValueError.
Proof.
  destruct l as [|a [|b l]]; simpl; intros H; try lia. reflexivity.
Qed.

Lemma item_lt_rows (n : nat) (sh : list nat) (x y : item) :
  (2 <= n)%nat -> is_row_of n sh x -> is_row_of n sh y ->
  item_lt x y = Raise ValueError.
Proof.
  intros Hn [dx [-> Hx]] [dy [-> Hy]]. unfold item_lt. cbn [shape data].
  destruct (list_eq_dec Nat.eq_dec sh sh) as [_|N]; [| contradiction].
  apply array_truth_long. rewrite zip_with_length; lia.
Qed.

Lemma sorted_by_rows (n : nat) (sh : list nat) (l : list item) :
  (2 <= n)%nat -> (2 <= length l)%nat -> Forall (is_row_of n sh) l ->
  sorted_by item_lt l = Raise ValueError.
Proof.
  intros Hn Hl Hall. induction Hall as [|x l Hx Hall IH]; [simpl in Hl; lia |].
  cbn [sorted_by].
  destruct l as [|z [|w l]].
  - simpl in Hl. lia.
  - inversion Hall as [|? ? Hz _]; subst.
    cbn [sorted_by insert_sorted bind].
    rewrite (item_lt_rows n sh z x Hn Hz Hx). reflexivity.
  - rewrite IH by (simpl; lia). reflexivity.
Qed.

Lemma mapM_index0_rows (r d0 : nat) (rest : list nat) (dat : list npfloat)
  (k : nat) :
  length dat = (r * size (d0 :: rest))%nat -> (k <= r)%nat ->
  exists its,
    mapM (index0 (mk_ndarray (r :: d0 :: rest) dat)) (seq (r - k) k) = Ok its
    /\ length its = k
    /\ Forall (is_row_of (size (d0 :: rest)) (d0 :: rest)) its.
Proof.
  intros Hlen. induction k as [|k IH]; intros Hk.
  - exists []. repeat split; constructor.
  - destruct IH as [its [E [L F]]]; [lia |].
    replace (r - k)%nat with (S (r - S k)) in E by lia.
    cbn [seq mapM]. rewrite E.
    unfold index0 at 1. cbn [shape data].
    assert (Hlt : Nat.ltb (r - S k) r = true) by (apply Nat.ltb_lt; lia).
    rewrite Hlt. cbn [bind].
    eexists. split; [reflexivity |]. split; [simpl; lia |].
    constructor; [| exact F].
    eexists. split; [reflexivity |].
    rewrite length_firstn, length_skipn, Hlen.
    apply Nat.min_l.
    assert ((r - S k) * size (d0 :: rest) + size (d0 :: rest)
            <= r * size (d0 :: rest))%nat; [| lia].
    replace ((r - S k) * size (d0 :: rest) + size (d0 :: rest))%nat
      with ((S (r - S k)) * size (d0 :: rest))%nat by lia.
    apply Nat.mul_le_mono_r. lia.
Qed.

(** X3. Auto-normalisation of an array with two or more axes, two or
    more items along the first and two or more elements in each of them,
    raises [ValueError]: [sorted] compares whole sub-arrays. *)
Theorem transmission_matrix_raises (r d0 : nat) (rest : list nat)
  (PIN reference : list npfloat)
  (clear_ratio PIN_dark ref_dark : option npfloat) :
  arg clear_ratio (Fin 0) = Fin 0 ->
  (2 <= r)%nat ->
  (2 <= size (d0 :: rest))%nat ->
  length PIN = (r * size (d0 :: rest))%nat ->
  length reference = (r * size (d0 :: rest))%nat ->
  fcompute_transmission (mk_ndarray (r :: d0 :: rest) PIN)
    (mk_ndarray (r :: d0 :: rest) reference) clear_ratio PIN_dark ref_dark
  = Raise ValueError.
Proof.
  intros Hc Hr Hn HP HR. unfold fcompute_transmission.
  rewrite Hc, truthy_zero.
  rewrite arr_map2_same by reflexivity. cbn [bind shape data arr_map].
  unfold sorted, iter, len. cbn [shape bind].
  destruct (mapM_index0_rows r d0 rest
              (zip_with np_div
                 (map (fun x => np_sub x (arg PIN_dark (Fin 0))) PIN)
                 (map (fun x => np_sub x (arg ref_dark (Fin 0))) reference))
              r) as [its [E [L F]]].
  - rewrite zip_with_length; rewrite !length_map; congruence.
  - lia.
  - rewrite Nat.sub_diag in E. rewrite E. cbn [bind].
    rewrite (sorted_by_rows (size (d0 :: rest)) (d0 :: rest) its Hn)
      by (try lia; exact F).
    reflexivity.
Qed.

Lemma transmission_matrix_raises_witness :
  arg None (Fin 0) = Fin 0
  /\ (2 <= 2)%nat
  /\ (2 <= size [2%nat])%nat
  /\ fcompute_transmission
       (mk_ndarray [2; 2]%nat [Fin 1; Fin 2; Fin 3; Fin 4])
       (mk_ndarray [2; 2]%nat [Fin 5; Fin 5; Fin 5; Fin 5]) None None None
     = Raise ValueError.
Proof.
  split; [reflexivity |]. split; [apply le_n |]. split; [apply le_n |].
  apply (transmission_matrix_raises 2 2 [] [Fin 1; Fin 2; Fin 3; Fin 4]
           [Fin 5; Fin 5; Fin 5; Fin 5] None None None eq_refl
           (le_n 2) (le_n 2) eq_refl eq_refl).
Defined.

Lemma extinction_abs_no_nan (x : npfloat) :
  x <> NaN -> np_neg (np_log (np_abs x)) <> NaN.
Proof.
  intros Hx. destruct x as [a| | |]; try discriminate; [| contradiction].
  cbn [np_abs np_log]. unfold Rltb, Reqb.
  destruct (Rlt_dec 0 (Rabs a)); [discriminate |].
  destruct (Req_dec_T (Rabs a) 0); [discriminate |].
  pose proof (Rabs_pos a). lra.
Qed.

Lemma extinction_positive (a : R) :
  0 < a ->
  np_neg (np_log (np_abs (Fin a))) = Fin (- ln a)
  /\ np_neg (np_log (Fin a)) = Fin (- ln a).
Proof.
  intros Ha. cbn [np_abs np_log]. rewrite Rabs_pos_eq by lra.
  rewrite Rltb_true by lra. split; reflexivity.
Qed.

Lemma extinction_negative (a : R) :
  a < 0 ->
  np_neg (np_log (np_abs (Fin a))) = Fin (- ln (- a))
  /\ np_neg (np_log (Fin a)) = NaN.
Proof.
  intros Ha. cbn [np_abs np_log]. rewrite Rabs_left by lra.
  rewrite (Rltb_true 0 (- a)) by lra.
  rewrite (Rltb_false 0 a), (Reqb_false a 0) by lra.
  split; reflexivity.
Qed.

(** X4. Whenever the transmission is computed, both modes of
    [fcompute_extinction_lengths] return an array of its shape, and
    [abs_value=None] is [abs_value=True].  Element by element: with
    [abs_value=True] the result is NaN only where the transmission is
    NaN; a positive transmission [a] gives [-ln a] in both modes; a
    negative transmission [a] gives [-ln(-a)] with [abs_value=True] and
    NaN with [abs_value=False]. *)
Theorem extinction_lengths_abs_value (PIN reference : farray)
  (clear_ratio PIN_dark ref_dark : option npfloat) (t : farray) :
  fcompute_transmission PIN reference clear_ratio PIN_dark ref_dark = Ok t ->
  exists e e',
    fcompute_extinction_lengths PIN reference clear_ratio PIN_dark ref_dark
      (Some true) = Ok e
    /\ fcompute_extinction_lengths PIN reference clear_ratio PIN_dark
         ref_dark None = Ok e
    /\ fcompute_extinction_lengths PIN reference clear_ratio PIN_dark
         ref_dark (Some false) = Ok e'
    /\ shape e = shape t /\ shape e' = shape t
    /\ length (data e) = length (data t)
    /\ length (data e') = length (data t)
    /\ forall i, (i < length (data t))%nat ->
         let x := nth i (data t) NaN in
         let y := nth i (data e) NaN in
         let y' := nth i (data e') NaN in
         (x <> NaN -> y <> NaN)
         /\ (forall a, x = Fin a -> 0 < a -> y = Fin (- ln a) /\ y' = y)
         /\ (forall a, x = Fin a -> a < 0 ->
             y = Fin (- ln (- a)) /\ y' = NaN).
Proof.
  intros Ht. unfold fcompute_extinction_lengths. rewrite Ht.
  cbn [arg bind].
  eexists. eexists. repeat (split; [reflexivity |]).
  cbn [arr_map data]. split; [rewrite !length_map; reflexivity |].
  split; [rewrite !length_map; reflexivity |].
  intros i Hi. cbn zeta.
  rewrite !map_map.
  rewrite (nth_indep (map _ (data t)) NaN
             (np_neg (np_log (np_abs NaN))))
    by (rewrite length_map; exact Hi).
  rewrite (map_nth (fun x => np_neg (np_log (np_abs x)))).
  rewrite (nth_indep (map (fun x => np_neg (np_log x)) (data t)) NaN
             (np_neg (np_log NaN)))
    by (rewrite length_map; exact Hi).
  rewrite (map_nth (fun x => np_neg (np_log x))).
  split; [apply extinction_abs_no_nan |]. split.
  - intros a -> Ha. destruct (extinction_positive a Ha) as [E1 E2].
    rewrite E1, E2. split; reflexivity.
  - intros a -> Ha. apply extinction_negative. exact Ha.
Qed.

Lemma extinction_lengths_abs_value_witness :
  fcompute_transmission (vec [Fin 3]) (vec [Fin 4]) (Some (Fin 1)) None None
  = Ok (vec (map (fun x => np_div x (Fin 1))
               (dark_ratio [Fin 3] [Fin 4] (Fin 0) (Fin 0))))
  /\ exists e,
       fcompute_extinction_lengths (vec [Fin 3]) (vec [Fin 4])
         (Some (Fin 1)) None None None = Ok e
       /\ shape e = [1%nat].
Proof.
  assert (Ht : fcompute_transmission (vec [Fin 3]) (vec [Fin 4])
                 (Some (Fin 1)) None None
               = Ok (vec (map (fun x => np_div x (Fin 1))
                            (dark_ratio [Fin 3] [Fin 4] (Fin 0) (Fin 0))))).
  { apply (transmission_explicit_ratio [1%nat] [Fin 3] [Fin 4] (Fin 1)).
    apply truthy_nonzero. intros E. inversion E. lra. }
  split; [exact Ht |].
  destruct (extinction_lengths_abs_value _ _ _ _ _ _ Ht)
    as [e [e' [_ [H2 [_ [H4 _]]]]]].
  exists e. split; [exact H2 | exact H4].
Defined.

(* ================================================================== *)
(** ** Further properties of the dead-time correction *)

(** The curve never exceeds [1 / (e * tc)]. *)
Lemma curve_maximum (tc x : R) :
  0 < tc -> x * exp (- tc * x) <= / (tc * exp 1).
Proof.
  intros Htc.
  assert (E1 : 0 < exp 1) by apply exp_pos.
  assert (Ex : 0 < exp (- tc * x)) by apply exp_pos.
  assert (Hu : 1 + (tc * x - 1) <= exp (tc * x - 1)) by apply exp_ineq1_le.
  assert (Hprod : exp (tc * x - 1) * (exp (- tc * x) * exp 1) = 1).
  { rewrite <- !exp_plus. replace (tc * x - 1 + (- tc * x + 1)) with 0 by lra.
    apply exp_0. }
  assert (Hk : tc * x * (exp (- tc * x) * exp 1) <= 1).
  { assert (Hm : tc * x * (exp (- tc * x) * exp 1)
                 <= exp (tc * x - 1) * (exp (- tc * x) * exp 1))
      by (apply Rmult_le_compat_r; [nra | lra]).
    lra. }
  apply Rmult_le_reg_r with (tc * exp 1); [nra |].
  rewrite Rinv_l by nra. nra.
Qed.

(** X5. For a positive time constant the dead-time equation has no
    solution at all when the observed rate exceeds [1 / (e * tc)] (the
    residual is negative everywhere), and otherwise at most one solution
    on each side of the peak [1 / tc]: two distinct zeros of
    [fdead_time_zero_function] lie on opposite sides of it. *)
Theorem dead_time_equation_roots (tc : R) :
  0 < tc ->
  (forall x obs, / (tc * exp 1) < obs ->
     exists v,
       fdead_time_zero_function (Fin x) (Fin obs) (Fin tc) = Fin v /\ v < 0)
  /\ (forall obs r1 r2, r1 < r2 ->
        fdead_time_zero_function (Fin r1) (Fin obs) (Fin tc) = Fin 0 ->
        fdead_time_zero_function (Fin r2) (Fin obs) (Fin tc) = Fin 0 ->
        r1 < / tc < r2).
Proof.
  intros Htc. split.
  - intros x obs Hobs. exists (residual x obs tc).
    split; [apply zero_function_fin |].
    unfold residual. pose proof (curve_maximum tc x Htc). lra.
  - intros obs r1 r2 Hlt H1 H2. rewrite zero_function_fin in H1, H2.
    inversion H1 as [Z1]. inversion H2 as [Z2].
    split.
    + destruct (Rlt_or_le r1 (/ tc)) as [H|H]; [exact H |].
      pose proof (residual_decreasing tc obs r1 r2 Htc H Hlt). lra.
    + destruct (Rlt_or_le (/ tc) r2) as [H|H]; [exact H |].
      pose proof (residual_increasing tc obs r1 r2 Htc Hlt H). lra.
Qed.

Lemma dead_time_equation_roots_witness :
  0 < 3.15e-7
  /\ exists v,
       fdead_time_zero_function (Fin 5) (Fin (/ (3.15e-7 * exp 1) + 1))
         (Fin 3.15e-7) = Fin v /\ v < 0.
Proof.
  assert (Htc : 0 < 3.15e-7) by lra.
  split; [exact Htc |].
  destruct (dead_time_equation_roots 3.15e-7 Htc) as [H _].
  apply (H 5 (/ (3.15e-7 * exp 1) + 1)). lra.
Defined.




Lemma single_rate_call_scaled
  (brentq : (npfloat -> npfloat) -> npfloat -> npfloat -> pyresult npfloat)
  (obs it tc : R) :
  0 < it ->
  mapM (solve_rate brentq (Fin tc))
    (map (fun x => np_div x (Fin it)) [Fin (obs * it)])
  = (x <- brentq
            (fun x => fdead_time_zero_function x (Fin obs) (Fin tc))
            (Fin (obs - 50000)) (Fin (obs + 1e5)) ;;
     Ok [x]).
Proof.
  intros Hit. cbn [map mapM]. rewrite np_div_fin by lra.
  replace (obs * it / it) with obs by (field; lra).
  unfold solve_rate. cbn [np_sub np_add np_neg]. unfold Rminus.
  destruct (brentq _ _ _); reflexivity.
Qed.

(** An actual rate on the rising branch that lies above the bracket: the
    residual is negative at both bracket ends. *)
Lemma beyond_bracket_signs (actual tc : R) :
  0 < tc -> 0 < actual -> actual <= / tc ->
  observed_rate actual tc + 1e5 < actual ->
  residual (observed_rate actual tc - 50000) (observed_rate actual tc) tc < 0
  /\ residual (observed_rate actual tc + 1e5) (observed_rate actual tc) tc
     < 0.
Proof.
  intros Htc Ha Hpeak Hout.
  pose proof (residual_at_actual actual tc) as Hz.
  split; rewrite <- Hz; apply residual_increasing; lra.
Qed.

(** X7. An actual rate on the rising branch of the dead-time curve whose
    observed rate lies more than 1e5 below it is never recovered: with
    [fast_events = observed_rate * integration_time], a [brentq] that
    honours its contract finds no sign change over the bracket and
    [fcorrect_deadtime] raises [ValueError], whatever the fluorescence
    and slow-event values are. *)
Theorem deadtime_beyond_bracket
  (brentq : (npfloat -> npfloat) -> npfloat -> npfloat -> pyresult npfloat)
  (xtol rtol actual tc it : R) (raw slow : npfloat) :
  0 < tc -> 0 < it -> 0 < actual -> actual <= / tc ->
  observed_rate actual tc + 1e5 < actual ->
  brentq_contract_at brentq xtol rtol
    (fun x =>
       fdead_time_zero_function x (Fin (observed_rate actual tc)) (Fin tc))
    (observed_rate actual tc - 50000) (observed_rate actual tc + 1e5) ->
  fcorrect_deadtime brentq (vec [raw]) (vec [slow])
    (vec [Fin (observed_rate actual tc * it)]) (Fin it) (Some (Fin tc))
  = Raise ValueError.
Proof.
  intros Htc Hit Ha Hpeak Hout Hc.
  destruct (beyond_bracket_signs actual tc Htc Ha Hpeak Hout) as [Hlo Hhi].
  unfold brentq_contract_at in Hc. rewrite !zero_function_fin in Hc.
  rewrite Rltb_true in Hc by nra.
  rewrite correct_deadtime_vec by reflexivity. cbn [arg].
  rewrite single_rate_call_scaled by exact Hit.
  rewrite Hc. reflexivity.
Qed.

Lemma deadtime_beyond_bracket_witness :
  0 < 3.15e-7 /\ 0 < 2 /\ 0 < 1e6 /\ 1e6 <= / 3.15e-7
  /\ observed_rate 1e6 3.15e-7 + 1e5 < 1e6
  /\ fcorrect_deadtime (brentq_raise ValueError) (vec [Fin 7]) (vec [Fin 3])
       (vec [Fin (observed_rate 1e6 3.15e-7 * 2)]) (Fin 2)
       (Some (Fin 3.15e-7))
     = Raise ValueError.
Proof.
  assert (Htc : 0 < 3.15e-7) by lra.
  assert (Hit : 0 < 2) by lra.
  assert (Ha : 0 < 1e6) by lra.
  assert (Hpeak : 1e6 <= / 3.15e-7) by lra.
  assert (Hout : observed_rate 1e6 3.15e-7 + 1e5 < 1e6)
    by (pose proof observed_rate_1e6; lra).
  assert (Hc : brentq_contract_at (brentq_raise ValueError) 0 0
                 (fun x =>
                    fdead_time_zero_function x
                      (Fin (observed_rate 1e6 3.15e-7)) (Fin 3.15e-7))
                 (observed_rate 1e6 3.15e-7 - 50000)
                 (observed_rate 1e6 3.15e-7 + 1e5)).
  { destruct (beyond_bracket_signs 1e6 3.15e-7 Htc Ha Hpeak Hout)
      as [Hlo Hhi].
    unfold brentq_contract_at. rewrite !zero_function_fin.
    rewrite Rltb_true by nra. reflexivity. }
  repeat (split; [assumption |]).
  apply (deadtime_beyond_bracket (brentq_raise ValueError) 0 0 1e6 3.15e-7 2
           (Fin 7) (Fin 3) Htc Hit Ha Hpeak Hout Hc).
Defined.

Lemma mapM_nth {A B : Type} (f : A -> pyresult B) (l : list A)
  (ys : list B) (i : nat) (d : A) (d' : B) :
  mapM f l = Ok ys -> (i < length l)%nat ->
  f (nth i l d) = Ok (nth i ys d').
Proof.
  revert ys i. induction l as [|x l IH]; intros ys i H Hi;
    [simpl in Hi; lia |].
  cbn [mapM] in H. destruct (f x) as [y|] eqn:E; [| discriminate].
  cbn [bind] in H. destruct (mapM f l) as [ys'|]; [| discriminate].
  cbn [bind] in H. inversion H; subst.
  destruct i as [|i]; [exact E |].
  cbn [nth]. apply IH; [reflexivity | simpl in Hi; lia].
Qed.

Lemma mapM_app_raise {A B : Type} (f : A -> pyresult B) (l1 l2 : list A)
  (c : A) (ys : list B) (e : pyerr) :
  mapM f l1 = Ok ys -> f c = Raise e -> mapM f (l1 ++ c :: l2) = Raise e.
Proof.
  revert ys. induction l1 as [|x l1 IH]; intros ys H Hc.
  - cbn [app mapM]. rewrite Hc. reflexivity.
  - cbn [app mapM] in *. destruct (f x); [| discriminate].
    cbn [bind] in *. destruct (mapM f l1) as [ys'|]; [| discriminate].
    rewrite (IH ys' eq_refl Hc). reflexivity.
Qed.

(** X8. On one-dimensional arrays of one length, when every root-finding
    call succeeds, [fcorrect_deadtime] returns an array of that length:
    element [i] is [raw[i] / live], with [live] the [nan_to_num] of
    [slow[i] / x / integration_time] and [x] the result of the call for
    [fast[i] / integration_time] alone. *)
Theorem correct_deadtime_one_dimensional
  (brentq : (npfloat -> npfloat) -> npfloat -> npfloat -> pyresult npfloat)
  (raw slow fast xs : list npfloat) (it : npfloat) (tc : option npfloat) :
  length raw = length fast ->
  length slow = length fast ->
  mapM (solve_rate brentq (arg tc (Fin 3.15e-7)))
    (map (fun x => np_div x it) fast) = Ok xs ->
  exists r,
    fcorrect_deadtime brentq (vec raw) (vec slow) (vec fast) it tc = Ok r
    /\ shape r = [length fast]
    /\ length (data r) = length fast
    /\ forall i, (i < length fast)%nat ->
         solve_rate brentq (arg tc (Fin 3.15e-7)) (np_div (nth i fast NaN) it)
         = Ok (nth i xs NaN)
         /\ nth i (data r) NaN
            = np_div (nth i raw NaN)
                (nan_to_num1
                   (np_div (np_div (nth i slow NaN) (nth i xs NaN)) it)).
Proof.
  intros Hraw Hslow Hxs.
  pose proof (mapM_length _ _ _ Hxs) as Lxs. rewrite length_map in Lxs.
  rewrite correct_deadtime_vec by assumption. rewrite Hxs. cbn [bind].
  assert (Llive : length (map nan_to_num1
                            (map (fun x => np_div x it)
                               (zip_with np_div slow xs)))
                  = length fast).
  { rewrite !length_map, zip_with_length by congruence. exact Hslow. }
  eexists. split; [reflexivity |].
  cbn [vec shape data].
  assert (Lr : length (zip_with np_div raw
                         (map nan_to_num1
                            (map (fun x => np_div x it)
                               (zip_with np_div slow xs))))
               = length fast).
  { rewrite zip_with_length by congruence. exact Hraw. }
  split; [rewrite Lr; reflexivity |]. split; [exact Lr |].
  intros i Hi. split.
  - rewrite <- (mapM_nth _ _ _ i (np_div NaN it) NaN Hxs)
      by (rewrite length_map; exact Hi).
    f_equal. rewrite (map_nth (fun x => np_div x it)). reflexivity.
  - rewrite (zip_with_nth np_div _ _ i NaN NaN) by lia.
    f_equal. rewrite map_map.
    rewrite (nth_indep _ NaN (nan_to_num1 (np_div NaN it)))
      by (rewrite length_map, zip_with_length by congruence; lia).
    rewrite (map_nth (fun x => nan_to_num1 (np_div x it))).
    rewrite (zip_with_nth np_div slow xs i NaN NaN) by lia.
    reflexivity.
Qed.

Lemma correct_deadtime_one_dimensional_witness :
  exists r,
    fcorrect_deadtime (brentq_const (Fin 5)) (vec [Fin 6; Fin 8])
      (vec [Fin 5; Fin 4]) (vec [Fin 5; Fin 5]) (Fin 1) None = Ok r
    /\ shape r = [2%nat].
Proof.
  destruct (correct_deadtime_one_dimensional (brentq_const (Fin 5))
              [Fin 6; Fin 8] [Fin 5; Fin 4] [Fin 5; Fin 5] [Fin 5; Fin 5]
              (Fin 1) None eq_refl eq_refl eq_refl) as [r [H1 [H2 _]]].
  exists r. split; assumption.
Defined.

(** X9. A root-finding failure is not caught: on one-dimensional arrays
    of one length, when the calls for the elements before position
    [length before] succeed and the call at that position raises [e],
    [fcorrect_deadtime] and [fcompute_fluorescence_fit_fast] raise [e]
    and return nothing. *)
Theorem deadtime_failure_propagates
  (brentq : (npfloat -> npfloat) -> npfloat -> npfloat -> pyresult npfloat)
  (raw slow before after radiography reference xs : list npfloat)
  (c it tc : npfloat) (abs_coeff : option npfloat) (baseline : option bool)
  (e : pyerr) :
  length raw = length (before ++ c :: after) ->
  length slow = length (before ++ c :: after) ->
  mapM (solve_rate brentq tc) (map (fun x => np_div x it) before) = Ok xs ->
  solve_rate brentq tc (np_div c it) = Raise e ->
  fcorrect_deadtime brentq (vec raw) (vec slow) (vec (before ++ c :: after))
    it (Some tc) = Raise e
  /\ fcompute_fluorescence_fit_fast brentq (vec raw) (vec slow)
       (vec (before ++ c :: after)) (vec radiography) (vec reference)
       (Some it) abs_coeff baseline (Some tc) = Raise e.
Proof.
  intros Hraw Hslow Hxs Hc.
  assert (H : fcorrect_deadtime brentq (vec raw) (vec slow)
                (vec (before ++ c :: after)) it (Some tc) = Raise e).
  { rewrite correct_deadtime_vec by assumption. cbn [arg].
    rewrite map_app. cbn [map].
    rewrite (mapM_app_raise _ _ _ _ xs e Hxs Hc). reflexivity. }
  split; [exact H |].
  rewrite fit_fast_unfold. cbn [arg]. rewrite H. reflexivity.
Qed.

Lemma deadtime_failure_propagates_witness :
  fcorrect_deadtime (brentq_raise ValueError) (vec [Fin 6; Fin 8])
    (vec [Fin 5; Fin 4]) (vec ([] ++ Fin 5 :: [Fin 5])) (Fin 1)
    (Some (Fin 3.15e-7)) = Raise ValueError
  /\ fcompute_fluorescence_fit_fast (brentq_raise ValueError)
       (vec [Fin 6; Fin 8]) (vec [Fin 5; Fin 4])
       (vec ([] ++ Fin 5 :: [Fin 5])) (vec [Fin 1; Fin 1])
       (vec [Fin 1; Fin 1]) (Some (Fin 1)) None None (Some (Fin 3.15e-7))
     = Raise ValueError.
Proof.
  apply (deadtime_failure_propagates (brentq_raise ValueError)
           [Fin 6; Fin 8] [Fin 5; Fin 4] [] [Fin 5] [Fin 1; Fin 1]
           [Fin 1; Fin 1] [] (Fin 5) (Fin 1) (Fin 3.15e-7) None None
           ValueError eq_refl eq_refl eq_refl eq_refl).
Defined.

(* ================================================================== *)
(** ** Further properties of the incident-intensity correction *)

(** X10. [fcorrect_incident_intensity_colocated] never raises and never
    returns NaN, an infinity or a negative value, whatever the array
    holds: every element of the result is a finite value in [0, 1].  A
    NaN, a minus infinity or any value up to 1e-5 (negative ones
    included) gives exactly 1; plus infinity gives exactly 0. *)
Theorem incident_intensity_any_input (ext_lengths : farray) :
  exists r,
    fcorrect_incident_intensity_colocated ext_lengths = Ok r
    /\ shape r = shape ext_lengths
    /\ Forall2
         (fun x c =>
            (exists v, c = Fin v /\ 0 <= v <= 1)
            /\ (x = NaN \/ x = NInf \/ (exists a, x = Fin a /\ a <= 1e-5) ->
                c = Fin 1)
            /\ (x = PInf -> c = Fin 0))
         (data ext_lengths) (data r).
Proof.
  rewrite incident_intensity_data.
  eexists. split; [reflexivity |]. split; [reflexivity |].
  cbn [arr_map data].
  induction (data ext_lengths) as [|x l IH]; simpl; constructor;
    [| exact IH].
  split; [apply correction1_range |]. split.
  - intros [-> | [-> | [a [-> Ha]]]]; try reflexivity.
    apply correction1_small. exact Ha.
  - intros ->. reflexivity.
Qed.

(** X11. For ten or more extinction lengths the correction is [1 / L]
    to within one part in 1024: it lies between [(1 - 1/1024) / L] and
    [1 / L]. *)
Theorem incident_intensity_thick_sample (sh : list nat) (L : list R) :
  Forall (fun x => 10 <= x) L ->
  exists r,
    fcorrect_incident_intensity_colocated (mk_ndarray sh (map Fin L)) = Ok r
    /\ Forall2
         (fun x c =>
            exists v, c = Fin v /\ (1 - / 1024) / x <= v <= 1 / x)
         L (data r).
Proof.
  intros H. rewrite incident_intensity_data.
  eexists. split; [reflexivity |]. cbn [arr_map data].
  induction H as [|x l Hx _ IH]; simpl; constructor; [| exact IH].
  exists ((1 - exp (- x)) / x).
  split; [apply correction1_large; lra |].
  pose proof (exp_ten_lower x Hx) as He.
  pose proof (exp_pos (- x)) as Hp.
  assert (Hinv : exp (- x) <= / 1024).
  { rewrite exp_Ropp. apply Rinv_le_contravar; lra. }
  assert (Hx0 : 0 < / x) by (apply Rinv_0_lt_compat; lra).
  unfold Rdiv. split; apply Rmult_le_compat_r; lra.
Qed.

Lemma incident_intensity_thick_sample_witness :
  Forall (fun x => 10 <= x) [10; 25]
  /\ exists r,
       fcorrect_incident_intensity_colocated
         (mk_ndarray [2%nat] (map Fin [10; 25])) = Ok r
       /\ Forall2
            (fun x c =>
               exists v, c = Fin v /\ (1 - / 1024) / x <= v <= 1 / x)
            [10; 25] (data r).
Proof.
  assert (H : Forall (fun x => 10 <= x) [10; 25])
    by (repeat constructor; lra).
  split; [exact H |].
  apply (incident_intensity_thick_sample [2%nat] [10; 25] H).
Defined.

(* ================================================================== *)
(** ** Further properties of the fluorescence pipelines *)

(** X12. On arrays of one shape and one number of elements
    [fcompute_fluorescence] raises nothing while [baseline] is false: it
    returns an array of that shape and size, whatever the values are
    (zeros, NaN or infinities included).  With [baseline=True] it raises
    [ValueError] when the arrays are empty, since [np.min] of an empty
    array is undefined, and returns an array of that shape and size
    otherwise. *)
Theorem fluorescence_never_raises (sh : list nat)
  (raw slow fast radiography reference : list npfloat)
  (abs_coeff : option npfloat) :
  length slow = length raw ->
  length fast = length raw ->
  length radiography = length raw ->
  length reference = length raw ->
  (exists r,
     fcompute_fluorescence (mk_ndarray sh raw) (mk_ndarray sh slow)
       (mk_ndarray sh fast) (mk_ndarray sh radiography)
       (mk_ndarray sh reference) abs_coeff None = Ok r
     /\ shape r = sh /\ length (data r) = length raw)
  /\ (raw = [] ->
      fcompute_fluorescence (mk_ndarray sh raw) (mk_ndarray sh slow)
        (mk_ndarray sh fast) (mk_ndarray sh radiography)
        (mk_ndarray sh reference) abs_coeff (Some true) = Raise ValueError)
  /\ (raw <> [] ->
      exists r,
        fcompute_fluorescence (mk_ndarray sh raw) (mk_ndarray sh slow)
          (mk_ndarray sh fast) (mk_ndarray sh radiography)
          (mk_ndarray sh reference) abs_coeff (Some true) = Ok r
        /\ shape r = sh /\ length (data r) = length raw).
Proof.
  intros Hs Hf Hrad Href.
  set (ext := data (ext_lengths_of (mk_ndarray sh radiography)
                      (arg abs_coeff (Fin 0)))).
  assert (Hext : length ext = length raw)
    by (unfold ext; rewrite ext_lengths_of_length; exact Hrad).
  pose proof (fluorescence_elements_length raw slow fast reference ext
                Hs Hf Href Hext) as Hlen.
  rewrite !fluorescence_data. fold ext. cbn [arg subtract_baseline].
  split; [| split].
  - eexists. split; [reflexivity |]. split; [reflexivity | exact Hlen].
  - intros ->. unfold np_min. cbn [data].
    destruct (fluorescence_elements [] slow fast reference ext) eqn:E;
      [reflexivity |].
    first [discriminate Hlen | rewrite E in Hlen; discriminate Hlen].
  - intros Hne. unfold np_min. cbn [data].
    destruct (fluorescence_elements raw slow fast reference ext)
      as [|y l] eqn:E.
    + destruct raw; [contradiction |].
      first [discriminate Hlen | rewrite E in Hlen; discriminate Hlen].
    + cbn [bind]. eexists. split; [reflexivity |].
      split; [reflexivity |].
      cbn [arr_map data]. rewrite length_map. exact Hlen.
Qed.

Lemma fluorescence_never_raises_witness :
  (exists r,
     fcompute_fluorescence (vec [NaN; Fin 0]) (vec [Fin 0; PInf])
       (vec [Fin 0; NInf]) (vec [Fin 0; NaN]) (vec [Fin 0; Fin 0]) None None
     = Ok r
     /\ shape r = [2%nat])
  /\ fcompute_fluorescence (vec []) (vec []) (vec []) (vec []) (vec []) None
       (Some true) = Raise ValueError.
Proof.
  split.
  - destruct (fluorescence_never_raises [2%nat] [NaN; Fin 0] [Fin 0; PInf]
                [Fin 0; NInf] [Fin 0; NaN] [Fin 0; Fin 0] None
                eq_refl eq_refl eq_refl eq_refl) as [[r [H1 [H2 _]]] _].
    exists r. split; assumption.
  - destruct (fluorescence_never_raises [0%nat] [] [] [] [] [] None
                eq_refl eq_refl eq_refl eq_refl) as [_ [H _]].
    apply H. reflexivity.
Defined.

Lemma fluorescence_elements_nth
  (raw slow fast reference ext : list npfloat) (i : nat) :
  length slow = length raw -> length fast = length raw ->
  length reference = length raw -> length ext = length raw ->
  (i < length raw)%nat ->
  nth i (fluorescence_elements raw slow fast reference ext) NaN
  = np_div
      (np_div
         (np_div (nth i raw NaN)
            (nan_to_num1 (np_div (nth i slow NaN) (nth i fast NaN))))
         (nth i reference NaN))
      (correction1 (nth i ext NaN)).
Proof.
  intros Hs Hf Hr He Hi. unfold fluorescence_elements.
  assert (L1 : length (map nan_to_num1 (zip_with np_div slow fast))
               = length raw)
    by (rewrite length_map, zip_with_length by lia; lia).
  assert (L2 : length (zip_with np_div raw
                         (map nan_to_num1 (zip_with np_div slow fast)))
               = length raw)
    by (rewrite zip_with_length by lia; lia).
  assert (L3 : length (zip_with np_div
                         (zip_with np_div raw
                            (map nan_to_num1 (zip_with np_div slow fast)))
                         reference) = length raw)
    by (rewrite zip_with_length by lia; lia).
  rewrite (zip_with_nth np_div _ _ i NaN (correction1 NaN))
    by (rewrite ?length_map; lia).
  rewrite map_nth.
  rewrite (zip_with_nth np_div _ _ i NaN NaN) by lia.
  rewrite (zip_with_nth np_div _ _ i NaN NaN) by lia.
  rewrite (nth_indep (map nan_to_num1 (zip_with np_div slow fast)) NaN
             (nan_to_num1 NaN)) by lia.
  rewrite (map_nth nan_to_num1).
  rewrite (zip_with_nth np_div slow fast i NaN NaN) by lia.
  reflexivity.
Qed.

Lemma ext_lengths_transmission_nth (sh : list nat)
  (radiography : list npfloat) (i : nat) :
  (i < length radiography)%nat ->
  nth i (data (ext_lengths_of (mk_ndarray sh radiography) (Fin 0))) NaN
  = np_neg (np_log (nth i radiography NaN)).
Proof.
  intros Hi. unfold ext_lengths_of. rewrite truthy_zero.
  cbn [arr_map data]. rewrite map_map.
  rewrite (nth_indep _ NaN (np_neg (np_log NaN)))
    by (rewrite length_map; exact Hi).
  apply (map_nth (fun x => np_neg (np_log x))).
Qed.

(** X13. [fcompute_fluorescence] with [abs_coeff = 0] reads
    [radiography] as a transmission.  At an element whose transmission
    is 1 or more, negative, NaN or infinite, the self-absorption
    correction is exactly 1 and the returned element is
    [raw / live_time / reference] with no further change; at an element
    whose transmission is 0 the correction is 0 and the returned element
    is that quotient divided by zero. *)
Theorem fluorescence_unphysical_transmission (sh : list nat)
  (raw slow fast radiography reference : list npfloat) (i : nat) :
  length slow = length raw ->
  length fast = length raw ->
  length radiography = length raw ->
  length reference = length raw ->
  (i < length raw)%nat ->
  exists r,
    fcompute_fluorescence (mk_ndarray sh raw) (mk_ndarray sh slow)
      (mk_ndarray sh fast) (mk_ndarray sh radiography)
      (mk_ndarray sh reference) (Some (Fin 0)) None = Ok r
    /\ let uncorrected :=
         np_div
           (np_div (nth i raw NaN)
              (nan_to_num1 (np_div (nth i slow NaN) (nth i fast NaN))))
           (nth i reference NaN) in
       (nth i radiography NaN = NaN
        \/ nth i radiography NaN = PInf
        \/ nth i radiography NaN = NInf
        \/ (exists a, nth i radiography NaN = Fin a /\ (a < 0 \/ 1 <= a)) ->
        nth i (data r) NaN = uncorrected)
       /\ (nth i radiography NaN = Fin 0 ->
           nth i (data r) NaN = np_div uncorrected (Fin 0)).
Proof.
  intros Hs Hf Hrad Href Hi.
  rewrite fluorescence_data. cbn [arg subtract_baseline].
  eexists. split; [reflexivity |]. cbn [data]. cbn zeta.
  rewrite fluorescence_elements_nth
    by (rewrite ?ext_lengths_of_length; cbn [data]; assumption).
  rewrite ext_lengths_transmission_nth by lia.
  split.
  - intros H.
    assert (Hc : correction1 (np_neg (np_log (nth i radiography NaN)))
                 = Fin 1).
    { destruct H as [-> | [-> | [-> | [a [-> Ha]]]]]; try reflexivity.
      destruct Ha as [Ha|Ha].
      - cbn [np_log]. rewrite Rltb_false, Reqb_false by lra. reflexivity.
      - cbn [np_log]. rewrite Rltb_true by lra. cbn [np_neg].
        apply correction1_small.
        assert (0 <= ln a); [| lra].
        destruct (Req_dec a 1) as [->|N]; [rewrite ln_1; lra |].
        left. rewrite <- ln_1. apply ln_increasing; lra. }
    rewrite Hc. apply np_div_one.
  - intros ->. cbn [np_log]. rewrite Rltb_false, Reqb_true by lra.
    reflexivity.
Qed.

Lemma fluorescence_unphysical_transmission_witness :
  exists r,
    fcompute_fluorescence (vec [Fin 6]) (vec [Fin 5]) (vec [Fin 5])
      (vec [Fin 2]) (vec [Fin 3]) (Some (Fin 0)) None = Ok r
    /\ nth 0 (data r) NaN
       = np_div (np_div (Fin 6) (nan_to_num1 (np_div (Fin 5) (Fin 5))))
           (Fin 3).
Proof.
  destruct (fluorescence_unphysical_transmission [1%nat] [Fin 6] [Fin 5]
              [Fin 5] [Fin 2] [Fin 3] 0 eq_refl eq_refl eq_refl eq_refl
              (Nat.lt_0_succ 0)) as [r [H1 [H2 _]]].
  exists r. split; [exact H1 |].
  apply H2. right. right. right. exists 2. split; [reflexivity | lra].
Defined.

(** X14. [fcompute_fluorescence_fit_fast] on one-dimensional arrays of
    one length, when every root-finding call succeeds and [baseline] is
    false: it returns an array of that length whose element [i] is
    [raw[i] / live / reference[i] / correction], with [live] the
    [nan_to_num] of [slow[i] / x / integration_time], [x] the rate found
    for element [i], and [correction] the incident-intensity correction
    of the extinction length of element [i]. *)
Theorem fit_fast_one_dimensional
  (brentq : (npfloat -> npfloat) -> npfloat -> npfloat -> pyresult npfloat)
  (raw slow fast radiography reference xs : list npfloat)
  (integration_time abs_coeff time_const : option npfloat) :
  length raw = length fast ->
  length slow = length fast ->
  length radiography = length fast ->
  length reference = length fast ->
  mapM (solve_rate brentq (arg time_const (Fin 3.13e-7)))
    (map (fun x => np_div x (arg integration_time (Fin 1))) fast) = Ok xs ->
  exists r,
    fcompute_fluorescence_fit_fast brentq (vec raw) (vec slow) (vec fast)
      (vec radiography) (vec reference) integration_time abs_coeff None
      time_const = Ok r
    /\ shape r = [length fast]
    /\ length (data r) = length fast
    /\ forall i, (i < length fast)%nat ->
         nth i (data r) NaN
         = np_div
             (np_div
                (np_div (nth i raw NaN)
                   (nan_to_num1
                      (np_div (np_div (nth i slow NaN) (nth i xs NaN))
                         (arg integration_time (Fin 1)))))
                (nth i reference NaN))
             (correction1
                (nth i (data (ext_lengths_of (vec radiography)
                                (arg abs_coeff (Fin 0)))) NaN)).
Proof.
  intros Hraw Hslow Hrad Href Hxs.
  pose proof (mapM_length _ _ _ Hxs) as Lxs. rewrite length_map in Lxs.
  set (it := arg integration_time (Fin 1)) in *.
  set (live := map nan_to_num1
                 (map (fun x => np_div x it) (zip_with np_div slow xs))).
  assert (Llive : length live = length fast).
  { unfold live. rewrite !length_map, zip_with_length by congruence.
    exact Hslow. }
  set (ext := data (ext_lengths_of (vec radiography)
                      (arg abs_coeff (Fin 0)))).
  assert (Lext : length ext = length fast).
  { unfold ext. rewrite ext_lengths_of_length. exact Hrad. }
  rewrite fit_fast_unfold. fold it.
  rewrite correct_deadtime_vec by assumption. cbn [arg]. rewrite Hxs.
  cbn [bind]. fold live.
  assert (L1 : length (zip_with np_div raw live) = length fast)
    by (rewrite zip_with_length by congruence; exact Hraw).
  rewrite arr_idiv_same
    by (unfold vec; cbn [shape]; congruence).
  cbn [bind shape data vec].
  rewrite incident_intensity_data. cbn [bind].
  assert (L2 : length (zip_with np_div (zip_with np_div raw live) reference)
               = length fast)
    by (rewrite zip_with_length by congruence; exact L1).
  rewrite arr_idiv_same
    by (cbn [arr_map shape]; rewrite ext_lengths_of_shape;
        unfold vec; cbn [shape]; congruence).
  cbn [subtract_baseline shape data arr_map]. fold ext.
  assert (L3 : length (zip_with np_div
                         (zip_with np_div (zip_with np_div raw live)
                            reference)
                         (map correction1 ext)) = length fast)
    by (rewrite zip_with_length by (rewrite length_map; congruence);
        exact L2).
  eexists. split; [reflexivity |]. cbn [shape data].
  split; [rewrite L1; reflexivity |]. split; [exact L3 |].
  intros i Hi.
  rewrite (zip_with_nth np_div _ _ i NaN (correction1 NaN))
    by (rewrite ?length_map; lia).
  rewrite map_nth.
  rewrite (zip_with_nth np_div _ _ i NaN NaN) by lia.
  rewrite (zip_with_nth np_div _ _ i NaN NaN) by lia.
  do 3 f_equal. unfold live. rewrite map_map.
  rewrite (nth_indep _ NaN (nan_to_num1 (np_div NaN it)))
    by (rewrite length_map, zip_with_length by congruence; lia).
  rewrite (map_nth (fun x => nan_to_num1 (np_div x it))).
  rewrite (zip_with_nth np_div slow xs i NaN NaN) by lia.
  reflexivity.
Qed.

Lemma fit_fast_one_dimensional_witness :
  exists r,
    fcompute_fluorescence_fit_fast (brentq_const (Fin 5)) (vec [Fin 6; Fin 8])
      (vec [Fin 5; Fin 4]) (vec [Fin 5; Fin 5]) (vec [Fin 1; Fin 1])
      (vec [Fin 2; Fin 2]) None None None None = Ok r
    /\ shape r = [2%nat].
Proof.
  destruct (fit_fast_one_dimensional (brentq_const (Fin 5)) [Fin 6; Fin 8]
              [Fin 5; Fin 4] [Fin 5; Fin 5] [Fin 1; Fin 1] [Fin 2; Fin 2]
              [Fin 5; Fin 5] None None None eq_refl eq_refl eq_refl eq_refl
              eq_refl) as [r [H1 [H2 _]]].
  exists r. split; assumption.
Defined.

(* ================================================================== *)
(** ** The auto-normalised transmission *)

(** The computation of [fcompute_transmission] with [clear_ratio = 0] on
    one-dimensional arrays of two or more elements. *)
Lemma transmission_vec_second_largest (PIN reference : list npfloat)
  (clear_ratio PIN_dark ref_dark : option npfloat) :
  arg clear_ratio (Fin 0) = Fin 0 ->
  length PIN = length reference ->
  (2 <= length PIN)%nat ->
  let ratio := dark_ratio PIN reference (arg PIN_dark (Fin 0))
                 (arg ref_dark (Fin 0)) in
  fcompute_transmission (vec PIN) (vec reference) clear_ratio PIN_dark
    ref_dark
  = Ok (vec (map (fun x =>
                    np_div x (nth (length ratio - 2) (sort_floats ratio) NaN))
               ratio)).
Proof.
  intros Hclear Hlen Hn ratio.
  assert (Hrl : length ratio = length PIN)
    by (apply dark_ratio_length; exact Hlen).
  assert (Hsl : length (sort_floats ratio) = length ratio)
    by (apply Permutation_length, sort_floats_perm).
  unfold fcompute_transmission. rewrite Hclear, truthy_zero.
  rewrite arr_map2_same
    by (unfold vec, arr_map; cbn [shape]; congruence).
  cbn [bind arr_map shape data vec].
  fold (dark_ratio PIN reference (arg PIN_dark (Fin 0))
          (arg ref_dark (Fin 0))).
  fold ratio. rewrite <- Hrl.
  change (mk_ndarray [length ratio] ratio) with (vec ratio).
  rewrite sorted_vec. cbn [bind len vec shape].
  assert (E : Nat.ltb 1 (length ratio) = true) by (apply Nat.ltb_lt; lia).
  rewrite E. change (-2)%Z with (- Z.of_nat 2)%Z.
  rewrite (py_getitem_from_end (map Scalar (sort_floats ratio)) 2
             (Scalar NaN)) by (rewrite length_map; lia).
  rewrite length_map, Hsl.
  rewrite (map_nth Scalar (sort_floats ratio) NaN).
  cbn [bind arr_div_item arr_map shape data].
  unfold vec. rewrite length_map. reflexivity.
Qed.

Lemma positive_floats_of_reals (rs : list R) :
  Forall (fun x => 0 < x) rs -> Forall positive_float (map Fin rs).
Proof.
  induction 1 as [|x l Hx _ IH]; simpl; constructor; [| exact IH].
  exists x. split; [reflexivity | exact Hx].
Qed.

Lemma divide_sorted (dv : R) (l : list npfloat) :
  0 < dv -> Forall positive_float l -> StronglySorted np_le l ->
  StronglySorted np_le (map (fun x => np_div x (Fin dv)) l).
Proof.
  intros Hd Hpos Hs. induction Hs as [|y l Hs IH Hy]; simpl; [constructor |].
  inversion Hpos as [|? ? [a [-> Ha]] Hl]; subst.
  constructor; [apply IH; exact Hl |].
  rewrite Forall_forall in *. intros z Hz.
  apply in_map_iff in Hz. destruct Hz as [w [<- Hw]].
  destruct (Hl w Hw) as [b [-> Hb]].
  specialize (Hy (Fin b) Hw). unfold np_le in *. cbn [np_lt] in Hy.
  rewrite !np_div_fin by lra. cbn [np_lt].
  unfold Rltb in *. destruct (Rlt_dec b a); [discriminate |].
  destruct (Rlt_dec (b / dv) (a / dv)) as [H|]; [| reflexivity].
  exfalso. apply (Rmult_lt_compat_r dv) in H; [| exact Hd].
  unfold Rdiv in H. rewrite !Rmult_assoc, Rinv_l in H by lra. lra.
Qed.

(** X15. Auto-normalisation of one-dimensional arrays of two or more
    elements whose dark-corrected ratio is positive and finite: the
    returned transmission has as many elements, and in ascending order
    its next-to-last, the second-largest, is exactly 1, so at most one
    element exceeds 1. *)
Theorem transmission_normalized_to_one (PIN reference : list npfloat)
  (clear_ratio PIN_dark ref_dark : option npfloat) (rs : list R) :
  arg clear_ratio (Fin 0) = Fin 0 ->
  length PIN = length reference ->
  (2 <= length PIN)%nat ->
  dark_ratio PIN reference (arg PIN_dark (Fin 0)) (arg ref_dark (Fin 0))
  = map Fin rs ->
  Forall (fun x => 0 < x) rs ->
  exists t s,
    fcompute_transmission (vec PIN) (vec reference) clear_ratio PIN_dark
      ref_dark = Ok (vec t)
    /\ length t = length PIN
    /\ Permutation s t
    /\ StronglySorted np_le s
    /\ nth (length s - 2) s NaN = Fin 1.
Proof.
  intros Hclear Hlen Hn Hratio Hpos.
  pose proof (transmission_vec_second_largest PIN reference clear_ratio
                PIN_dark ref_dark Hclear Hlen Hn) as Hcomp.
  cbn zeta in Hcomp. rewrite Hratio in Hcomp.
  pose proof (dark_ratio_length PIN reference (arg PIN_dark (Fin 0))
                (arg ref_dark (Fin 0)) Hlen) as Hrl.
  rewrite Hratio in Hrl.
  set (ratio := map Fin rs) in *.
  set (s0 := sort_floats ratio) in *.
  assert (Hrp : Forall positive_float ratio)
    by (apply positive_floats_of_reals; exact Hpos).
  assert (Hperm : Permutation s0 ratio) by apply sort_floats_perm.
  assert (Hsp : Forall positive_float s0)
    by (apply (Permutation_Forall (Permutation_sym Hperm)); exact Hrp).
  assert (Hsl : length s0 = length ratio)
    by (apply Permutation_length; exact Hperm).
  assert (Hin : In (nth (length ratio - 2) s0 NaN) s0)
    by (apply nth_In; lia).
  rewrite Forall_forall in Hsp.
  destruct (Hsp _ Hin) as [dv [Hd Hdv]].
  rewrite Hd in Hcomp.
  exists (map (fun x => np_div x (Fin dv)) ratio),
         (map (fun x => np_div x (Fin dv)) s0).
  split; [exact Hcomp |].
  split; [rewrite length_map; exact Hrl |].
  split; [apply Permutation_map; exact Hperm |].
  split.
  { apply divide_sorted; [exact Hdv | |].
    - rewrite Forall_forall. exact Hsp.
    - apply sort_floats_sorted.
      apply Forall_impl with (P := positive_float); [| exact Hrp].
      intros z [v [-> _]]. discriminate. }
  rewrite length_map, Hsl.
  rewrite (nth_indep _ NaN (np_div NaN (Fin dv)))
    by (rewrite length_map; lia).
  rewrite (map_nth (fun x => np_div x (Fin dv))), Hd.
  rewrite np_div_fin by lra. f_equal. field. lra.
Qed.

Lemma transmission_normalized_to_one_witness :
  exists t s,
    fcompute_transmission (vec [Fin 3; Fin 1; Fin 2])
      (vec [Fin 1; Fin 1; Fin 1]) None None None = Ok (vec t)
    /\ Permutation s t
    /\ StronglySorted np_le s
    /\ nth (length s - 2) s NaN = Fin 1.
Proof.
  assert (Hratio : dark_ratio [Fin 3; Fin 1; Fin 2] [Fin 1; Fin 1; Fin 1]
                     (arg None (Fin 0)) (arg None (Fin 0))
                   = map Fin [(3 + - 0) / (1 + - 0); (1 + - 0) / (1 + - 0);
                              (2 + - 0) / (1 + - 0)]).
  { unfold dark_ratio. cbn [arg map zip_with np_sub np_add np_neg].
    rewrite !np_div_fin by lra. reflexivity. }
  assert (Hpos : Forall (fun x => 0 < x)
                   [(3 + - 0) / (1 + - 0); (1 + - 0) / (1 + - 0);
                    (2 + - 0) / (1 + - 0)]).
  { repeat constructor; rewrite Ropp_0, !Rplus_0_r, Rdiv_1_r; lra. }
  destruct (transmission_normalized_to_one [Fin 3; Fin 1; Fin 2]
              [Fin 1; Fin 1; Fin 1] None None None _ eq_refl eq_refl
              (le_S _ _ (le_n 2)) Hratio Hpos)
    as [t [s [H1 [_ [H4 [H5 H6]]]]]].
  exists t, s. repeat (split; [assumption |]). exact H6.
Defined.

(* ================================================================== *)
(** ** Further edge behaviour *)

(** X16. [fcompute_radiography_density] without [abs_coeff] (default 1)
    returns the extinction lengths [-ln|transmission|] unchanged; with
    any non-zero [abs_coeff] it raises whatever [fcompute_transmission]
    raises. *)
Theorem radiography_density_default (PIN reference : farray)
  (clear_ratio PIN_dark ref_dark : option npfloat) :
  (forall t,
      fcompute_transmission PIN reference clear_ratio PIN_dark ref_dark
      = Ok t ->
      fcompute_radiography_density PIN reference clear_ratio PIN_dark
        ref_dark None
      = Ok (Some (arr_map (fun x => np_neg (np_log (np_abs x))) t)))
  /\ (forall e abs_coeff,
        fcompute_transmission PIN reference clear_ratio PIN_dark ref_dark
        = Raise e ->
        truthy abs_coeff = true ->
        fcompute_radiography_density PIN reference clear_ratio PIN_dark
          ref_dark (Some abs_coeff) = Raise e).
Proof.
  split.
  - intros t Ht. unfold fcompute_radiography_density. cbn [arg].
    rewrite (truthy_nonzero (Fin 1)) by (intros E; inversion E; lra).
    rewrite extinction_lengths_defaults.
    unfold fcompute_extinction_lengths. rewrite Ht. cbn [arg bind].
    do 2 f_equal. unfold arr_map. cbn [shape data]. f_equal.
    rewrite !map_map.
    apply map_ext. intros x. apply np_div_one.
  - intros e ac He Hac. unfold fcompute_radiography_density. cbn [arg].
    rewrite Hac, extinction_lengths_defaults.
    unfold fcompute_extinction_lengths. rewrite He. reflexivity.
Qed.

Lemma radiography_density_default_witness :
  fcompute_transmission (vec [Fin 3]) (vec [Fin 4]) (Some (Fin 1)) None None
  = Ok (vec (map (fun x => np_div x (Fin 1))
               (dark_ratio [Fin 3] [Fin 4] (Fin 0) (Fin 0))))
  /\ fcompute_radiography_density (vec [Fin 3]) (vec [Fin 4]) (Some (Fin 1))
       None None None
     = Ok (Some (arr_map (fun x => np_neg (np_log (np_abs x)))
                   (vec (map (fun x => np_div x (Fin 1))
                           (dark_ratio [Fin 3] [Fin 4] (Fin 0) (Fin 0)))))).
Proof.
  assert (Ht : fcompute_transmission (vec [Fin 3]) (vec [Fin 4])
                 (Some (Fin 1)) None None
               = Ok (vec (map (fun x => np_div x (Fin 1))
                            (dark_ratio [Fin 3] [Fin 4] (Fin 0) (Fin 0))))).
  { apply (transmission_explicit_ratio [1%nat] [Fin 3] [Fin 4] (Fin 1)).
    apply truthy_nonzero. intros E. inversion E. lra. }
  split; [exact Ht |].
  destruct (radiography_density_default (vec [Fin 3]) (vec [Fin 4])
              (Some (Fin 1)) None None) as [H _].
  apply H. exact Ht.
Defined.

Lemma as_double_long_row (f : npfloat -> npfloat) (sh : list nat)
  (d : list npfloat) :
  (2 <= length d)%nat ->
  as_double (item_map f (Row (mk_ndarray sh d))) = Raise TypeError.
Proof.
  destruct d as [|a [|b d]]; simpl; intros H; try lia. reflexivity.
Qed.

(** X17. [fcorrect_deadtime] on any [fast_events] array with two or more
    axes, at least one item along the first and two or more elements in
    each item, raises [TypeError] before [brentq] evaluates anything:
    the first bracket end is a whole sub-array. *)
Theorem correct_deadtime_rows_raise
  (brentq : (npfloat -> npfloat) -> npfloat -> npfloat -> pyresult npfloat)
  (r d0 : nat) (rest : list nat) (fast : list npfloat)
  (raw slow : farray) (it : npfloat) (tc : option npfloat) :
  (1 <= r)%nat ->
  (2 <= size (d0 :: rest))%nat ->
  length fast = (r * size (d0 :: rest))%nat ->
  fcorrect_deadtime brentq raw slow (mk_ndarray (r :: d0 :: rest) fast) it tc
  = Raise TypeError.
Proof.
  intros Hr Hn Hlen.
  assert (Hrow : (1 * size (d0 :: rest) <= r * size (d0 :: rest))%nat)
    by (apply Nat.mul_le_mono_r; lia).
  assert (Hel : fit_element brentq
                  (arr_map (fun x => np_div x it)
                     (mk_ndarray (r :: d0 :: rest) fast))
                  (arg tc (Fin 3.15e-7)) 0 = Raise TypeError).
  { unfold fit_element, index0. cbn [arr_map shape data].
    assert (H0 : Nat.ltb 0 r = true) by (apply Nat.ltb_lt; lia).
    rewrite H0. cbn [bind].
    rewrite as_double_long_row; [reflexivity |].
    rewrite length_firstn, length_skipn, length_map. lia. }
  unfold fcorrect_deadtime, fitted_fast_countrate_of.
  set (a := arr_map (fun x => np_div x it)
              (mk_ndarray (r :: d0 :: rest) fast)) in *.
  assert (La : length (data (flatten a)) = length fast)
    by (unfold a; cbn [flatten vec arr_map data]; apply length_map).
  destruct (length (data (flatten a))) as [|n]; [lia |].
  cbn [seq fit_loop]. rewrite Hel. reflexivity.
Qed.

Lemma correct_deadtime_rows_raise_witness :
  (1 <= 1)%nat /\ (2 <= size [3%nat])%nat
  /\ fcorrect_deadtime (brentq_const (Fin 5))
       (mk_ndarray [1; 3]%nat [Fin 1; Fin 1; Fin 1])
       (mk_ndarray [1; 3]%nat [Fin 1; Fin 1; Fin 1])
       (mk_ndarray [1; 3]%nat [Fin 4; Fin 5; Fin 6]) (Fin 1) None
     = Raise TypeError.
Proof.
  assert (H : (2 <= size [3%nat])%nat) by (simpl; lia).
  split; [apply le_n |]. split; [exact H |].
  apply (correct_deadtime_rows_raise (brentq_const (Fin 5)) 1 3 []
           [Fin 4; Fin 5; Fin 6]
           (mk_ndarray [1; 3]%nat [Fin 1; Fin 1; Fin 1])
           (mk_ndarray [1; 3]%nat [Fin 1; Fin 1; Fin 1]) (Fin 1) None
           (le_n 1) H eq_refl).
Defined.

Lemma vectors_not_broadcast (f : npfloat -> npfloat -> npfloat)
  (l1 l2 : list npfloat) :
  length l1 <> length l2 -> length l1 <> 1%nat -> length l2 <> 1%nat ->
  arr_map2 f (vec l1) (vec l2) = Raise ValueError.
Proof.
  intros Hne H1 H2. unfold arr_map2, vec. cbn [shape].
  destruct (list_eq_dec Nat.eq_dec [length l1] [length l2]) as [E|_];
    [inversion E; contradiction |].
  unfold arr_broadcast2, broadcast_shapes. cbn [shape rev app broadcast_rev].
  apply Nat.eqb_neq in Hne, H1, H2. rewrite Hne, H1, H2. reflexivity.
Qed.

(** X18. One-dimensional arrays of different lengths, neither of them 1,
    cannot be broadcast: [fcompute_transmission] raises [ValueError] for
    such [PIN] and [reference], and [fcompute_fluorescence] for such
    [slow_events] and [fast_events], whatever the other arguments
    are. *)
Theorem length_mismatch_raises (l1 l2 : list npfloat) :
  length l1 <> length l2 -> length l1 <> 1%nat -> length l2 <> 1%nat ->
  (forall clear_ratio PIN_dark ref_dark,
      fcompute_transmission (vec l1) (vec l2) clear_ratio PIN_dark ref_dark
      = Raise ValueError)
  /\ (forall raw radiography reference abs_coeff baseline,
        fcompute_fluorescence raw (vec l1) (vec l2) radiography reference
          abs_coeff baseline = Raise ValueError).
Proof.
  intros Hne H1 H2. split.
  - intros cr pd rd. unfold fcompute_transmission.
    replace (arr_map (fun x => np_sub x (arg pd (Fin 0))) (vec l1))
      with (vec (map (fun x => np_sub x (arg pd (Fin 0))) l1))
      by (unfold vec, arr_map; cbn [shape data]; rewrite length_map;
          reflexivity).
    replace (arr_map (fun x => np_sub x (arg rd (Fin 0))) (vec l2))
      with (vec (map (fun x => np_sub x (arg rd (Fin 0))) l2))
      by (unfold vec, arr_map; cbn [shape data]; rewrite length_map;
          reflexivity).
    rewrite vectors_not_broadcast by (rewrite !length_map; assumption).
    reflexivity.
  - intros raw rad ref ac bl. unfold fcompute_fluorescence.
    rewrite vectors_not_broadcast by assumption. reflexivity.
Qed.

Lemma length_mismatch_raises_witness :
  length [Fin 1; Fin 2] <> length [Fin 1; Fin 2; Fin 3]
  /\ fcompute_transmission (vec [Fin 1; Fin 2]) (vec [Fin 1; Fin 2; Fin 3])
       None None None = Raise ValueError.
Proof.
  assert (Hne : length [Fin 1; Fin 2] <> length [Fin 1; Fin 2; Fin 3])
    by discriminate.
  assert (H1 : length [Fin 1; Fin 2] <> 1%nat) by discriminate.
  assert (H2 : length [Fin 1; Fin 2; Fin 3] <> 1%nat) by discriminate.
  split; [exact Hne |].
  destruct (length_mismatch_raises [Fin 1; Fin 2] [Fin 1; Fin 2; Fin 3]
              Hne H1 H2) as [H _].
  apply H.
Defined.

(** X19. In [fcompute_fluorescence], at an element with no fast events
    but a positive number of slow events, the ratio is plus infinity and
    [nan_to_num] turns the live time into the largest finite float: the
    returned element is [raw / DBL_MAX] carried through the two later
    divisions. *)
Theorem fluorescence_slow_without_fast (sh : list nat)
  (raw slow fast radiography reference : list npfloat)
  (abs_coeff : option npfloat) (i : nat) (s : R) :
  length slow = length raw ->
  length fast = length raw ->
  length radiography = length raw ->
  length reference = length raw ->
  (i < length raw)%nat ->
  nth i slow NaN = Fin s -> 0 < s ->
  nth i fast NaN = Fin 0 ->
  exists q r,
    arr_map2 np_div (mk_ndarray sh slow) (mk_ndarray sh fast) = Ok q
    /\ nth i (data q) NaN = PInf
    /\ nth i (data (nan_to_num q)) NaN = Fin DBL_MAX
    /\ fcompute_fluorescence (mk_ndarray sh raw) (mk_ndarray sh slow)
         (mk_ndarray sh fast) (mk_ndarray sh radiography)
         (mk_ndarray sh reference) abs_coeff None = Ok r
    /\ nth i (data r) NaN
       = np_div
           (np_div (np_div (nth i raw NaN) (Fin DBL_MAX))
              (nth i reference NaN))
           (correction1
              (nth i (data (ext_lengths_of (mk_ndarray sh radiography)
                              (arg abs_coeff (Fin 0)))) NaN)).
Proof.
  intros Hs Hf Hrad Href Hi Hslow Hpos Hfast.
  assert (Hq : np_div (nth i slow NaN) (nth i fast NaN) = PInf).
  { rewrite Hslow, Hfast. cbn [np_div]. rewrite Reqb_true by reflexivity.
    unfold inf_signed. rewrite Rltb_true by lra. reflexivity. }
  eexists. eexists.
  split; [apply arr_map2_same; reflexivity |].
  cbn [data shape nan_to_num arr_map].
  split.
  { rewrite (zip_with_nth np_div slow fast i NaN NaN) by lia. exact Hq. }
  split.
  { rewrite (nth_indep (map nan_to_num1 (zip_with np_div slow fast)) NaN
               (nan_to_num1 NaN))
      by (rewrite length_map, zip_with_length by lia; lia).
    rewrite (map_nth nan_to_num1).
    rewrite (zip_with_nth np_div slow fast i NaN NaN) by lia.
    rewrite Hq. reflexivity. }
  split; [rewrite fluorescence_data; reflexivity |].
  cbn [arg subtract_baseline data].
  rewrite fluorescence_elements_nth
    by (rewrite ?ext_lengths_of_length; cbn [data]; assumption).
  rewrite Hq. reflexivity.
Qed.

Lemma fluorescence_slow_without_fast_witness :
  exists q r,
    arr_map2 np_div (vec [Fin 4]) (vec [Fin 0]) = Ok q
    /\ nth 0 (data (nan_to_num q)) NaN = Fin DBL_MAX
    /\ fcompute_fluorescence (vec [Fin 6]) (vec [Fin 4]) (vec [Fin 0])
         (vec [Fin 1]) (vec [Fin 2]) None None = Ok r.
Proof.
  assert (Hpos : 0 < 4) by lra.
  destruct (fluorescence_slow_without_fast [1%nat] [Fin 6] [Fin 4] [Fin 0]
              [Fin 1] [Fin 2] None 0 4 eq_refl eq_refl eq_refl eq_refl
              (Nat.lt_0_succ 0) eq_refl Hpos eq_refl)
    as [q [r [H1 [_ [H3 [H4 _]]]]]].
  exists q, r. repeat (split; [assumption |]). exact H4.
Defined.
